(** * Voice bot: the React voice session controller and the Express proxy

    A shallow embedding of [src/frontend-1/src/App.js]: the [VoiceBot]
    component (its state hooks, the speech recognition and synthesis
    handlers, [callGeminiAPI]) and the server part of the same file
    ([rateLimit], the [POST /api/ask] handler with its retry loop).

    JavaScript strings are modelled by [string]; a character stands for one
    UTF-16 code unit, so [String.length] is the [.length] of the source.
    JavaScript numbers that hold counters and millisecond timestamps are
    modelled by [Z]. *)

From stdpp Require Import gmap strings list.
From Stdlib Require Import ZArith Lia Bool.

Local Open Scope string_scope.
Local Open Scope list_scope.

(** ** Strings: [String.prototype.includes] *)

Fixpoint startsWith (s search : string) : bool :=
  match search, s with
  | EmptyString, _ => true
  | String a search', String b s' => Ascii.eqb a b && startsWith s' search'
  | String _ _, EmptyString => false
  end.

Fixpoint includes (s search : string) : bool :=
  startsWith s search
  || match s with
     | EmptyString => false
     | String _ s' => includes s' search
     end.

(** What "contains the substring" means, independently of the search. *)
Definition has_substring (s sub : string) : Prop :=
  exists pre post : string, s = pre +:+ sub +:+ post.

(** * The client: [VoiceBot] *)

Module Client.

(** [{ type: 'user' | 'bot', text }] *)
Inductive Role := user | bot.

Record Message := { type : Role; text : string }.

(** The recognition object behind [recognitionRef.current]: whether
    [start()] has been called and whether the session has begun.  The
    browser delivers [onstart] after [start()], [onresult] only inside a
    session, and [onend] closes it. *)
Inductive Recognition := RecIdle | RecStarting | RecActive.

(** The synthesizer behind [synthRef.current]; the component never has
    more than one utterance queued because [speakText] cancels first. *)
Inductive Synth := SynQuiet | SynQueued | SynSpeaking.

(** The hooks of the component ([useState], [useRef]) and the questions
    whose [callGeminiAPI] promise has not settled yet. *)
Record State := {
  isListening : bool;
  isProcessing : bool;
  isSpeaking : bool;
  conversation : list Message;
  currentTranscript : string;
  error : string;
  isSupported : bool;
  recognitionRef : option Recognition;
  synthRef : option Synth;
  pending : list string
}.

Definition setIsListening (b : bool) (s : State) : State :=
  {| isListening := b; isProcessing := isProcessing s; isSpeaking := isSpeaking s;
     conversation := conversation s; currentTranscript := currentTranscript s;
     error := error s; isSupported := isSupported s;
     recognitionRef := recognitionRef s; synthRef := synthRef s; pending := pending s |}.

Definition setIsProcessing (b : bool) (s : State) : State :=
  {| isListening := isListening s; isProcessing := b; isSpeaking := isSpeaking s;
     conversation := conversation s; currentTranscript := currentTranscript s;
     error := error s; isSupported := isSupported s;
     recognitionRef := recognitionRef s; synthRef := synthRef s; pending := pending s |}.

Definition setIsSpeaking (b : bool) (s : State) : State :=
  {| isListening := isListening s; isProcessing := isProcessing s; isSpeaking := b;
     conversation := conversation s; currentTranscript := currentTranscript s;
     error := error s; isSupported := isSupported s;
     recognitionRef := recognitionRef s; synthRef := synthRef s; pending := pending s |}.

(** [setConversation] is always called with an updater [prev => ...] or a
    constant. *)
Definition setConversation (f : list Message -> list Message) (s : State) : State :=
  {| isListening := isListening s; isProcessing := isProcessing s; isSpeaking := isSpeaking s;
     conversation := f (conversation s); currentTranscript := currentTranscript s;
     error := error s; isSupported := isSupported s;
     recognitionRef := recognitionRef s; synthRef := synthRef s; pending := pending s |}.

Definition setCurrentTranscript (t : string) (s : State) : State :=
  {| isListening := isListening s; isProcessing := isProcessing s; isSpeaking := isSpeaking s;
     conversation := conversation s; currentTranscript := t;
     error := error s; isSupported := isSupported s;
     recognitionRef := recognitionRef s; synthRef := synthRef s; pending := pending s |}.

Definition setError (e : string) (s : State) : State :=
  {| isListening := isListening s; isProcessing := isProcessing s; isSpeaking := isSpeaking s;
     conversation := conversation s; currentTranscript := currentTranscript s;
     error := e; isSupported := isSupported s;
     recognitionRef := recognitionRef s; synthRef := synthRef s; pending := pending s |}.

Definition setIsSupported (b : bool) (s : State) : State :=
  {| isListening := isListening s; isProcessing := isProcessing s; isSpeaking := isSpeaking s;
     conversation := conversation s; currentTranscript := currentTranscript s;
     error := error s; isSupported := b;
     recognitionRef := recognitionRef s; synthRef := synthRef s; pending := pending s |}.

Definition setRecognition (r : option Recognition) (s : State) : State :=
  {| isListening := isListening s; isProcessing := isProcessing s; isSpeaking := isSpeaking s;
     conversation := conversation s; currentTranscript := currentTranscript s;
     error := error s; isSupported := isSupported s;
     recognitionRef := r; synthRef := synthRef s; pending := pending s |}.

Definition setSynth (y : option Synth) (s : State) : State :=
  {| isListening := isListening s; isProcessing := isProcessing s; isSpeaking := isSpeaking s;
     conversation := conversation s; currentTranscript := currentTranscript s;
     error := error s; isSupported := isSupported s;
     recognitionRef := recognitionRef s; synthRef := y; pending := pending s |}.

Definition setPending (n : list string) (s : State) : State :=
  {| isListening := isListening s; isProcessing := isProcessing s; isSpeaking := isSpeaking s;
     conversation := conversation s; currentTranscript := currentTranscript s;
     error := error s; isSupported := isSupported s;
     recognitionRef := recognitionRef s; synthRef := synthRef s; pending := n |}.

(** The values passed to [useState] and [useRef]. *)
Definition initial : State :=
  {| isListening := false; isProcessing := false; isSpeaking := false;
     conversation := []; currentTranscript := ""; error := "";
     isSupported := true; recognitionRef := None; synthRef := None; pending := [] |}.

(** The mount effect: [supported] tells whether the browser has both
    [SpeechRecognition] and [speechSynthesis]. *)
Definition mount (supported : bool) (s : State) : State :=
  if supported then
    setSynth (Some SynQuiet) (setRecognition (Some RecIdle) s)
  else
    setError "Your browser does not support speech recognition or synthesis. Please use Chrome or Edge."
      (setIsSupported false s).

(** ** [callGeminiAPI] *)

Record Request := {
  url : string;
  method : string;
  contentType : string;
  question : string   (* body: JSON.stringify({ question }) *)
}.

(** What [fetch] gives back: the promise rejects (transport failure) or a
    response arrives; [json] is [None] when [response.json()] rejects and
    otherwise holds [data.response]. *)
Record Response := { ok : bool; json : option string }.

Inductive FetchOutcome := Rejected | Responded (r : Response).

Inductive Thrown := Err (message : string) | FetchError | JsonError.

(** A computation that talks to the network: it reads the behaviour of the
    network and appends every request it sends to a log. *)
Definition Net (A : Type) : Type :=
  (Request -> FetchOutcome) -> list Request -> (Thrown + A) * list Request.

Definition ret {A} (a : A) : Net A := fun _ log => (inr a, log).
Definition throw {A} (e : Thrown) : Net A := fun _ log => (inl e, log).
Definition bind {A B} (m : Net A) (k : A -> Net B) : Net B :=
  fun net log =>
    match m net log with
    | (inl e, log') => (inl e, log')
    | (inr a, log') => k a net log'
    end.

Notation "'await' x := m 'in' k" := (bind m (fun x => k))
  (at level 10, x name, m at level 100, k at level 200).

Definition fetch (r : Request) : Net Response :=
  fun net log =>
    match net r with
    | Rejected => (inl FetchError, log ++ [r])
    | Responded resp => (inr resp, log ++ [r])
    end.

Definition response_json (r : Response) : Net string :=
  match json r with
  | None => throw JsonError
  | Some data_response => ret data_response
  end.

Definition ask_request (q : string) : Request :=
  {| url := "https://voice-bot-react.onrender.com/api/ask";
     method := "POST";
     contentType := "application/json";
     question := q |}.

Definition callGeminiAPI (q : string) : Net string :=
  await response := fetch (ask_request q) in
  if negb (ok response) then throw (Err "Failed to get AI response")
  else
    await data := response_json response in
    ret data.

(** The value the promise of [callGeminiAPI] settles with, given what
    [fetch] did. *)
Definition settle (q : string) (o : FetchOutcome) : Thrown + string :=
  fst (callGeminiAPI q (fun _ => o) []).

(** ** Calls into the browser *)

(** [recognition.start()]: begins a session when none is under way; on a
    recognition that has already been started the browser raises
    [InvalidStateError] and the recognition itself is left as it was. *)
Definition recognition_start (r : Recognition) : Recognition :=
  match r with
  | RecIdle => RecStarting
  | RecStarting => RecStarting
  | RecActive => RecActive
  end.

(** [recognition.stop()]: the session stays open until [onend]. *)
Definition recognition_stop (r : Recognition) : Recognition := r.

(** [synth.cancel()] empties the queue; [synth.speak(utterance)] queues. *)
Definition synth_cancel (y : Synth) : Synth := SynQuiet.
Definition synth_speak (y : Synth) : Synth := SynQueued.

(** ** The handlers *)

(** [recognitionRef.current.onstart] *)
Definition recognition_onstart (s : State) : State :=
  setError "" (setIsListening true s).

(** [speakText] *)
Definition speakText (response : string) (s : State) : State :=
  match synthRef s with
  | None => s
  | Some y => setSynth (Some (synth_speak (synth_cancel y))) s
  end.

(** [recognitionRef.current.onresult], up to the [await]. *)
Definition recognition_onresult (transcript : string) (s : State) : State :=
  let s := setCurrentTranscript transcript s in
  let s := setIsListening false s in
  let s := setIsProcessing true s in
  let s := setConversation
             (fun prev => prev ++ [{| type := user; text := transcript |}]) s in
  setPending (pending s ++ [transcript]) s.

(** [recognitionRef.current.onresult], from the [await] on: the [try]
    body, the [catch] and the [finally]. *)
Definition recognition_onresult_resume (settled : Thrown + string) (s : State) : State :=
  let s :=
    match settled with
    | inr response =>
        let s := setConversation
                   (fun prev => prev ++ [{| type := bot; text := response |}]) s in
        speakText response s
    | inl err => setError "Failed to get AI response. Please try again." s
    end in
  setIsProcessing false s.

Definition errorMessage (event_error : string) : string :=
  if String.eqb event_error "network" then
    "Network error. Please check your internet connection and try again. Note: HTTPS may be required."
  else if String.eqb event_error "not-allowed" then
    "Microphone access denied. Please allow microphone permissions and refresh the page."
  else if String.eqb event_error "no-speech" then
    "No speech detected. Please try speaking again."
  else if String.eqb event_error "aborted" then
    "Speech recognition was aborted."
  else "Speech recognition error: " +:+ event_error.

(** [recognitionRef.current.onerror] *)
Definition recognition_onerror (event_error : string) (s : State) : State :=
  let s := setIsListening false s in
  let s := setIsProcessing false s in
  setError (errorMessage event_error) s.

(** [recognitionRef.current.onend] *)
Definition recognition_onend (s : State) : State := setIsListening false s.

(** [utterance.onstart], [utterance.onend], [utterance.onerror] *)
Definition utterance_onstart (s : State) : State := setIsSpeaking true s.
Definition utterance_onend (s : State) : State := setIsSpeaking false s.
Definition utterance_onerror (s : State) : State := setIsSpeaking false s.

Definition startListening (s : State) : State :=
  match recognitionRef s with
  | None => s
  | Some r =>
      if isListening s || isProcessing s then s
      else
        let s := setError "" s in
        let s := setCurrentTranscript "" s in
        setRecognition (Some (recognition_start r)) s
  end.

Definition stopListening (s : State) : State :=
  match recognitionRef s with
  | Some r =>
      if isListening s then setRecognition (Some (recognition_stop r)) s else s
  | None => s
  end.

Definition stopSpeaking (s : State) : State :=
  match synthRef s with
  | Some y =>
      let s := setSynth (Some (synth_cancel y)) s in
      setIsSpeaking false s
  | None => s
  end.

Definition clearConversation (s : State) : State :=
  let s := setConversation (fun _ => []) s in
  let s := setCurrentTranscript "" s in
  let s := setError "" s in
  stopSpeaking s.

(** ** Events

    What can happen to the mounted component: the user presses a button, or
    the browser calls one of the registered handlers, or the promise of
    [callGeminiAPI] settles. *)
Inductive Event :=
| StartListening
| StopListening
| StopSpeaking
| ClearConversation
| RecOnStart
| RecOnResult (transcript : string)
| RecOnError (event_error : string)
| RecOnEnd
| Settled (q : string) (o : FetchOutcome)
| UttOnStart
| UttOnEnd
| UttOnError.

Fixpoint remove_first (q : string) (l : list string) : list string :=
  match l with
  | [] => []
  | x :: l' => if String.eqb q x then l' else x :: remove_first q l'
  end.

(** The browser side of an event: what it does to the recognition object,
    to the synthesizer and to the promises in flight. *)
Definition browser (e : Event) (s : State) : State :=
  match e with
  | RecOnStart => setRecognition (Some RecActive) s
  | RecOnEnd => setRecognition (Some RecIdle) s
  | Settled q _ => setPending (remove_first q (pending s)) s
  | UttOnStart => setSynth (Some SynSpeaking) s
  | UttOnEnd | UttOnError =>
      match synthRef s with
      | Some SynSpeaking => setSynth (Some SynQuiet) s
      | _ => s
      end
  | _ => s
  end.

Definition handle (e : Event) (s : State) : State :=
  match e with
  | StartListening => startListening s
  | StopListening => stopListening s
  | StopSpeaking => stopSpeaking s
  | ClearConversation => clearConversation s
  | RecOnStart => recognition_onstart (browser e s)
  | RecOnResult transcript => recognition_onresult transcript (browser e s)
  | RecOnError event_error => recognition_onerror event_error (browser e s)
  | RecOnEnd => recognition_onend (browser e s)
  | Settled q o => recognition_onresult_resume (settle q o) (browser e s)
  | UttOnStart => utterance_onstart (browser e s)
  | UttOnEnd => utterance_onend (browser e s)
  | UttOnError => utterance_onerror (browser e s)
  end.

Fixpoint run (s : State) (tr : list Event) : State :=
  match tr with
  | [] => s
  | e :: tr' => run (handle e s) tr'
  end.

(** The order in which the browser can deliver its callbacks: [onstart]
    answers a [start()], results come inside a session, a session that has
    been started ends or fails, a promise settles once, an utterance starts
    after it was queued.  The completion events of an utterance ([onend],
    [onerror]) are not restricted: a cancelled utterance still reports its
    end.  The user's operations are not restricted either. *)
Definition browser_allows (s : State) (e : Event) : bool :=
  match e with
  | StartListening | StopListening | StopSpeaking | ClearConversation => true
  | RecOnStart =>
      match recognitionRef s with Some RecStarting => true | _ => false end
  | RecOnResult _ =>
      match recognitionRef s with Some RecActive => true | _ => false end
  | RecOnError _ | RecOnEnd =>
      match recognitionRef s with
      | Some RecStarting | Some RecActive => true
      | _ => false
      end
  | Settled q _ => existsb (String.eqb q) (pending s)
  | UttOnStart =>
      match synthRef s with Some SynQueued => true | _ => false end
  | UttOnEnd | UttOnError =>
      match synthRef s with Some _ => true | None => false end
  end.

(** What the rendered page offers: the microphone button calls
    [stopListening] while listening and [startListening] otherwise and is
    disabled while processing; the stop button exists while speaking; the
    clear button exists while the conversation is not empty.  Nothing is
    rendered in an unsupported browser. *)
Definition page_offers (s : State) (e : Event) : bool :=
  match e with
  | StartListening => isSupported s && negb (isProcessing s) && negb (isListening s)
  | StopListening => isSupported s && negb (isProcessing s) && isListening s
  | StopSpeaking => isSupported s && isSpeaking s
  | ClearConversation =>
      isSupported s && match conversation s with [] => false | _ :: _ => true end
  | _ => true
  end.

Fixpoint follows (allows : State -> Event -> bool) (s : State) (tr : list Event) : bool :=
  match tr with
  | [] => true
  | e :: tr' => allows s e && follows allows (handle e s) tr'
  end.

(** ** The four session states of the specification *)

Inductive SessionState := Idle | Listening | Processing | Speaking.

(** The session state a component state stands for, when exactly one
    holds. *)
Definition session (s : State) : option SessionState :=
  match isListening s, isProcessing s, isSpeaking s with
  | false, false, false => Some Idle
  | true, false, false => Some Listening
  | false, true, false => Some Processing
  | false, false, true => Some Speaking
  | _, _, _ => None
  end.



Definition ok_response (t : string) : FetchOutcome :=
  Responded {| ok := true; json := Some t |}.




(** What the guards of the component and the order of the browser's
    callbacks maintain. *)
Definition guarded (s : State) : Prop :=
  (recognitionRef s = Some RecStarting -> isProcessing s = false) /\
  isListening s && isProcessing s = false /\
  (isSpeaking s = true -> synthRef s <> None).

(** ** Sample sessions *)

(** One question is asked and answered; while the answer is being spoken
    the user presses the microphone again and recognition starts. *)
Definition barge_in : list Event :=
  [StartListening; RecOnStart; RecOnResult "hi"; RecOnEnd;
   Settled "hi" (ok_response "yo"); UttOnStart;
   StartListening; RecOnStart].


(** A question has been recognised and its answer is awaited. *)
Definition awaiting_answer : list Event :=
  [StartListening; RecOnStart; RecOnResult "hi"].

(** A question was answered and the answer is being spoken. *)
Definition answer_spoken : list Event :=
  [StartListening; RecOnStart; RecOnResult "hi"; RecOnEnd;
   Settled "hi" (ok_response "yo"); UttOnStart].

(** ** Bookkeeping on sessions *)

Definition clears (e : Event) : bool :=
  match e with
  | ClearConversation => true
  | _ => false
  end.

(** The browser's order, for sessions in which the clear button is not
    pressed. *)
Definition allows_without_clearing (s : State) (e : Event) : bool :=
  browser_allows s e && negb (clears e).

Definition is_role (r : Role) (m : Message) : bool :=
  match r, type m with
  | user, user | bot, bot => true
  | _, _ => false
  end.

(** How many turns of a role a conversation has. *)
Fixpoint turns (r : Role) (c : list Message) : nat :=
  match c with
  | [] => 0
  | m :: c' => (if is_role r m then 1 else 0) + turns r c'
  end.

(** What the flags promise about the browser objects: the component shows
    listening only inside a recognition session, and processing only while
    a request is in flight. *)
Definition coherent (s : State) : Prop :=
  (isListening s = true -> recognitionRef s = Some RecActive) /\
  (isProcessing s = true -> pending s <> []).

(** A component that can do nothing: the state an unsupported browser is
    left in. *)
Definition inert (s : State) : Prop :=
  isListening s = false /\ isProcessing s = false /\ isSpeaking s = false /\
  conversation s = [] /\ recognitionRef s = None /\ synthRef s = None /\
  pending s = [] /\ isSupported s = false.

(** One whole exchange: a question is recognised, answered and spoken to
    the end. *)
Definition exchange (transcript response : string) : list Event :=
  [StartListening; RecOnStart; RecOnResult transcript; RecOnEnd;
   Settled transcript (ok_response response); UttOnStart; UttOnEnd].

(** The text of the latest user turn of a conversation. *)
Fixpoint last_user (c : list Message) : option string :=
  match c with
  | [] => None
  | m :: c' =>
      match last_user c' with
      | Some t => Some t
      | None => if is_role user m then Some (text m) else None
      end
  end.

(** What the box under the buttons shows: nothing, or the latest question
    of the conversation. *)
Definition transcript_shown (s : State) : Prop :=
  currentTranscript s = "" \/
  last_user (conversation s) = Some (currentTranscript s).

End Client.

(** * The server: [rateLimit] and [POST /api/ask] *)

Module Server.

(** ** Replies *)

(** [res.status(n).json({ error })] and [res.json({ response })]; the
    response is [None] when the variable is still [undefined]. *)
Inductive Body :=
| ErrorBody (error : string)
| ResponseBody (response : option string).

Record Reply := { status : Z; body : Body }.

(** A middleware either calls [next()] or answers. *)
Inductive Middleware := Next | Replied (r : Reply).

(** ** Rate limiting *)

(** The values of [rateLimitStore]: [{ count, resetTime }]. *)
Record ClientData := { count : Z; resetTime : Z }.

Definition windowMs : Z := 60 * 1000.
Definition maxRequests : Z := 10.

(** [rateLimit]: [clientId] is [req.ip], [now] is [Date.now()].  The store
    is the [Map] the middleware mutates; [clientData.count++] changes the
    object the map holds. *)
Definition rateLimit (rateLimitStore : gmap string ClientData)
    (clientId : string) (now : Z) : gmap string ClientData * Middleware :=
  match rateLimitStore !! clientId with
  | None =>
      (<[clientId := {| count := 1; resetTime := now + windowMs |}]> rateLimitStore,
       Next)
  | Some clientData =>
      if (resetTime clientData <? now)%Z then
        (<[clientId := {| count := 1; resetTime := now + windowMs |}]> rateLimitStore,
         Next)
      else if (maxRequests <=? count clientData)%Z then
        (rateLimitStore,
         Replied {| status := 429;
                    body := ErrorBody "Too many requests. Please try again later." |})
      else
        (<[clientId := {| count := count clientData + 1;
                          resetTime := resetTime clientData |}]> rateLimitStore,
         Next)
  end.

(** ** The request body *)

(** The value of [req.body.question] after [express.json()]: absent, or
    any JSON value.  For a number only being zero matters here; arrays and
    objects are all [JsObject]. *)
Inductive JsValue :=
| JsUndefined
| JsNull
| JsBoolean (b : bool)
| JsNumber (z : Z)
| JsString (s : string)
| JsObject.

Definition truthy (v : JsValue) : bool :=
  match v with
  | JsUndefined | JsNull => false
  | JsBoolean b => b
  | JsNumber z => negb (z =? 0)%Z
  | JsString s => negb (String.eqb s "")
  | JsObject => true
  end.

Definition typeof (v : JsValue) : string :=
  match v with
  | JsUndefined => "undefined"
  | JsNull => "object"
  | JsBoolean _ => "boolean"
  | JsNumber _ => "number"
  | JsString _ => "string"
  | JsObject => "object"
  end.

(** The characters of a value that is a string. *)
Definition chars (v : JsValue) : string :=
  match v with
  | JsString s => s
  | _ => ""
  end.

(** ** The upstream model *)

(** One call of [model.generateContent(prompt)] followed by
    [result.response.text()]: a text, or an error with its message. *)
Inductive Generated := Text (t : string) | Failure (message : string).

(** The upstream, as the outcome of its n-th call (counted from 0). *)
Definition Upstream : Type := nat -> Generated.

(** What the handler does to the outside, in order. *)
Inductive Effect := GenerateContent (prompt : string) | Wait (ms : Z).

Definition nl : string := String (Ascii.ascii_of_nat 10) EmptyString.

Definition vishalBio : string :=
  nl +:+ "You are speaking as Vishal Sanap, a full-stack developer from India who graduated in 2024,"
  +:+ nl +:+ "specializing in frontend with React and Next.js. You're exploring Generative AI voice-based apps."
  +:+ nl +:+ "Keep responses conversational, friendly, and to-the-point."
  +:+ nl.

(** The test of the inner [catch]. *)
Definition retryable (message : string) : bool :=
  includes message "429" || includes message "quota".

(** How the [while (retries > 0)] loop is left. *)
Inductive LoopExit :=
| Break (response : string)
| Return (r : Reply)
| Throw (message : string)
| ConditionFalse.

(** The retry loop; [retries] is the variable of the source and [attempt]
    counts the calls made so far.  Every [continue] follows a
    [retries--], which is what the recursion descends on. *)
Fixpoint retry_loop (upstream : Upstream) (prompt : string)
    (retries : nat) (attempt : nat) : list Effect * LoopExit :=
  match retries with
  | O => ([], ConditionFalse)
  | S retries' =>
      match upstream attempt with
      | Text t => ([GenerateContent prompt], Break t)
      | Failure message =>
          if retryable message then
            if (0 <? retries')%nat then
              let '(effects, exit) :=
                retry_loop upstream prompt retries' (S attempt) in
              (GenerateContent prompt :: Wait 2000 :: effects, exit)
            else
              ([GenerateContent prompt],
               Return {| status := 429;
                         body := ErrorBody "AI service rate limit exceeded. Please try again later." |})
          else ([GenerateContent prompt], Throw message)
      end
  end.

(** [vishalBio + "\n\nUser asked: " + question] *)
Definition prompt_of (q : string) : string :=
  (vishalBio +:+ (nl +:+ nl +:+ "User asked: ")) +:+ q.

(** The handler of [POST /api/ask], after the middleware. *)
Definition ask (upstream : Upstream) (question : JsValue) : Reply * list Effect :=
  if negb (truthy question) || negb (String.eqb (typeof question) "string") then
    ({| status := 400;
        body := ErrorBody "Question is required and must be a string" |}, [])
  else if (1000 <? String.length (chars question))%nat then
    ({| status := 400;
        body := ErrorBody "Question is too long (max 1000 characters)" |}, [])
  else
    let prompt := prompt_of (chars question) in
    match retry_loop upstream prompt 3 0 with
    | (effects, Break response) =>
        ({| status := 200; body := ResponseBody (Some response) |}, effects)
    | (effects, ConditionFalse) =>
        ({| status := 200; body := ResponseBody None |}, effects)
    | (effects, Return r) => (r, effects)
    | (effects, Throw _) =>
        ({| status := 500;
            body := ErrorBody "Failed to generate response. Please try again." |},
         effects)
    end.

(** The route: [app.post('/api/ask', rateLimit, handler)]. *)
Definition post_api_ask (rateLimitStore : gmap string ClientData)
    (clientId : string) (now : Z) (question : JsValue) (upstream : Upstream)
  : gmap string ClientData * Reply * list Effect :=
  match rateLimit rateLimitStore clientId now with
  | (store, Next) =>
      let '(reply, effects) := ask upstream question in (store, reply, effects)
  | (store, Replied reply) => (store, reply, [])
  end.

(** A caller sending requests at the given times. *)
Fixpoint requests (rateLimitStore : gmap string ClientData) (clientId : string)
    (times : list Z) : gmap string ClientData * list Middleware :=
  match times with
  | [] => (rateLimitStore, [])
  | now :: times' =>
      let '(store, m) := rateLimit rateLimitStore clientId now in
      let '(store', ms) := requests store clientId times' in
      (store', m :: ms)
  end.

(** How many times the upstream was called. *)
Fixpoint calls (effects : list Effect) : nat :=
  match effects with
  | [] => 0
  | GenerateContent _ :: effects' => S (calls effects')
  | Wait _ :: effects' => calls effects'
  end.

(** The effects of [k] failed attempts that were retried. *)
Fixpoint retried (prompt : string) (k : nat) : list Effect :=
  match k with
  | O => []
  | S k' => GenerateContent prompt :: Wait 2000 :: retried prompt k'
  end.

(** A question the handler answers with 400: missing or not a string, the
    empty string, or a string of more than 1000 characters. *)
Definition malformed (question : JsValue) : Prop :=
  match question with
  | JsString s => s = "" \/ 1000 < String.length s
  | _ => True
  end.

(** The caller's count in the current window is below the maximum: there
    is no record, or the window is over, or the count is below 10. *)
Definition has_budget (rateLimitStore : gmap string ClientData)
    (clientId : string) (now : Z) : Prop :=
  match rateLimitStore !! clientId with
  | None => True
  | Some clientData =>
      (resetTime clientData < now)%Z \/ (count clientData < maxRequests)%Z
  end.

(** The record after a request of a caller that had budget left. *)
Definition charged (rateLimitStore : gmap string ClientData)
    (clientId : string) (now : Z) : ClientData :=
  match rateLimitStore !! clientId with
  | None => {| count := 1; resetTime := now + windowMs |}
  | Some clientData =>
      if (resetTime clientData <? now)%Z
      then {| count := 1; resetTime := now + windowMs |}
      else {| count := count clientData + 1; resetTime := resetTime clientData |}
  end.

Definition too_many_requests : Reply :=
  {| status := 429; body := ErrorBody "Too many requests. Please try again later." |}.

(** ** Bookkeeping on requests *)

(** The time the handler spends waiting. *)
Fixpoint total_wait (effects : list Effect) : Z :=
  match effects with
  | [] => 0
  | GenerateContent _ :: effects' => total_wait effects'
  | Wait ms :: effects' => ms + total_wait effects'
  end.

(** The reply of the retry loop when the budget is used up. *)
Definition upstream_rate_limited : Reply :=
  {| status := 429;
     body := ErrorBody "AI service rate limit exceeded. Please try again later." |}.

(** Every record of the store counts between 1 and the maximum. *)
Definition within_limit (rateLimitStore : gmap string ClientData) : Prop :=
  map_Forall (fun _ d => (1 <= count d <= maxRequests)%Z) rateLimitStore.

(** Requests of several callers in the order of their arrival, each with
    its caller and its time; the verdicts are kept with the caller. *)
Fixpoint arrivals (rateLimitStore : gmap string ClientData)
    (reqs : list (string * Z)) : gmap string ClientData * list (string * Middleware) :=
  match reqs with
  | [] => (rateLimitStore, [])
  | (clientId, now) :: reqs' =>
      let '(store, m) := rateLimit rateLimitStore clientId now in
      let '(store', ms) := arrivals store reqs' in
      (store', (clientId, m) :: ms)
  end.

(** The times at which one caller sent requests, and the verdicts it
    received. *)
Fixpoint own_times (clientId : string) (reqs : list (string * Z)) : list Z :=
  match reqs with
  | [] => []
  | (c, now) :: reqs' =>
      if String.eqb c clientId then now :: own_times clientId reqs'
      else own_times clientId reqs'
  end.

Fixpoint own_verdicts (clientId : string) (ms : list (string * Middleware))
  : list Middleware :=
  match ms with
  | [] => []
  | (c, m) :: ms' =>
      if String.eqb c clientId then m :: own_verdicts clientId ms'
      else own_verdicts clientId ms'
  end.

End Server.

(** * Facts about the client *)

Module ClientFacts.
Import Client.

(** ** Traces *)

Lemma run_app (s : State) (tr1 tr2 : list Event) :
  run s (tr1 ++ tr2) = run (run s tr1) tr2.
Proof.
  revert s. induction tr1 as [|e tr1 IH]; intros s; cbn; [reflexivity|apply IH].
Qed.

(** A property kept by every allowed event holds along every allowed
    trace. *)
Lemma follows_invariant (allows : State -> Event -> bool) (P : State -> Prop) :
  (forall s e, P s -> allows s e = true -> P (handle e s)) ->
  forall tr s, P s -> follows allows s tr = true -> P (run s tr).
Proof.
  intros Hstep tr. induction tr as [|e tr IH]; intros s Hs Hf; cbn in *.
  - exact Hs.
  - apply andb_true_iff in Hf as [He Hf]. apply IH; [|exact Hf].
    apply Hstep; assumption.
Qed.

(** Case analysis on the flags and the two browser objects of a state. *)
Ltac by_cases s :=
  destruct s as [l p sp c t er su [[]|] [[]|] pe]; destruct l, p, sp.

Ltac by_outcome o :=
  destruct o as [|[[] []]].

Lemma guarded_mount (supported : bool) : guarded (mount supported initial).
Proof. destruct supported; repeat split; intros; cbn in *; congruence. Qed.

Lemma guarded_handle (s : State) (e : Event) :
  guarded s -> browser_allows s e = true -> guarded (handle e s).
Proof.
  unfold guarded. destruct e; try by_outcome o; by_cases s; cbn;
    intros (H1 & H2 & H3) Ha;
    try specialize (H1 eq_refl); try specialize (H3 eq_refl);
    repeat split; intros; congruence.
Qed.

Lemma guarded_run (supported : bool) (tr : list Event) :
  follows browser_allows (mount supported initial) tr = true ->
  guarded (run (mount supported initial) tr).
Proof.
  apply (follows_invariant browser_allows guarded guarded_handle).
  apply guarded_mount.
Qed.

(** ** Exclusion of the activities (C1) *)

(** C1, counterexample.  The claim says that along every sequence of
    operations and callbacks exactly one of Idle, Listening, Processing and
    Speaking holds.  In the session [barge_in] every event is one the page
    offers and the browser can deliver, and at its end [isListening] and
    [isSpeaking] are both true: [startListening] tests [isListening] and
    [isProcessing] only, so it starts recognition while the answer is
    spoken. *)
Lemma C1_listening_while_speaking :
  follows browser_allows (mount true initial) barge_in = true /\
  follows page_offers (mount true initial) barge_in = true /\
  isListening (run (mount true initial) barge_in) = true /\
  isSpeaking (run (mount true initial) barge_in) = true /\
  session (run (mount true initial) barge_in) = None /\
  ~ (forall tr : list Event,
        follows browser_allows (mount true initial) tr = true ->
        session (run (mount true initial) tr) <> None).
Proof.
  repeat split; try reflexivity.
  intros H. apply (H barge_in); reflexivity.
Qed.

(** C1, amended.  Along every sequence of operations and callbacks the
    browser can deliver, listening and processing never hold together;
    whenever two activities hold together, speaking is one of them. *)
Theorem C1_listening_excludes_processing (supported : bool) (tr : list Event) :
  follows browser_allows (mount supported initial) tr = true ->
  isListening (run (mount supported initial) tr)
    && isProcessing (run (mount supported initial) tr) = false /\
  (session (run (mount supported initial) tr) = None ->
   isSpeaking (run (mount supported initial) tr) = true).
Proof.
  intros Hf. destruct (guarded_run supported tr Hf) as (_ & Hlp & _).
  split; [exact Hlp|].
  unfold session. revert Hlp.
  destruct (isListening _), (isProcessing _), (isSpeaking _); cbn; congruence.
Qed.

Lemma C1_listening_excludes_processing_witness :
  follows browser_allows (mount true initial) barge_in = true /\
  (isListening (run (mount true initial) barge_in)
     && isProcessing (run (mount true initial) barge_in) = false /\
   (session (run (mount true initial) barge_in) = None ->
    isSpeaking (run (mount true initial) barge_in) = true)).
Proof.
  split; [reflexivity|].
  apply (C1_listening_excludes_processing true barge_in). reflexivity.
Defined.

(** ** Operations outside their source state (C2) *)




(** ** Clearing the conversation (C6) *)

(** C6, counterexample.  The claim says that the reset forces Idle from
    every state.  While the answer to the first question is awaited the
    page shows the clear button; [clearConversation] empties the
    conversation and leaves [isProcessing] true. *)
Lemma C6_clear_while_processing :
  follows browser_allows (mount true initial)
    (awaiting_answer ++ [ClearConversation]) = true /\
  follows page_offers (mount true initial)
    (awaiting_answer ++ [ClearConversation]) = true /\
  session (run (mount true initial) awaiting_answer) = Some Processing /\
  isProcessing (clearConversation (run (mount true initial) awaiting_answer)) = true /\
  session (clearConversation (run (mount true initial) awaiting_answer)) = Some Processing /\
  ~ (forall s : State, session (clearConversation s) = Some Idle).
Proof.
  repeat split; try reflexivity.
  intros H.
  specialize (H (run (mount true initial) awaiting_answer)).
  vm_compute in H. discriminate H.
Qed.

(** C6, amended.  In a mounted component [clearConversation] empties the
    conversation, the current transcript and the error, cancels the
    synthesizer and sets [isSpeaking] to false; it leaves [isListening] and
    [isProcessing] as they are, so the state after it is Idle exactly when
    the component was neither listening nor processing. *)
Theorem C6_clearConversation (s : State) :
  synthRef s <> None ->
  conversation (clearConversation s) = [] /\
  currentTranscript (clearConversation s) = "" /\
  error (clearConversation s) = "" /\
  isSpeaking (clearConversation s) = false /\
  synthRef (clearConversation s) = Some SynQuiet /\
  isListening (clearConversation s) = isListening s /\
  isProcessing (clearConversation s) = isProcessing s /\
  (session (clearConversation s) = Some Idle <->
   isListening s = false /\ isProcessing s = false).
Proof.
  intros Hy. unfold clearConversation, stopSpeaking, session. cbn.
  destruct (synthRef s) as [y|] eqn:Ey; [|congruence]. cbn.
  repeat split; try reflexivity;
    destruct (isListening s), (isProcessing s); cbn in *;
    intuition congruence.
Qed.

Lemma C6_clearConversation_witness :
  synthRef (run (mount true initial) answer_spoken) <> None /\
  conversation (clearConversation (run (mount true initial) answer_spoken)) = [] /\
  session (clearConversation (run (mount true initial) answer_spoken)) = Some Idle.
Proof.
  assert (Hy : synthRef (run (mount true initial) answer_spoken) <> None)
    by (vm_compute; discriminate).
  destruct (C6_clearConversation (run (mount true initial) answer_spoken) Hy)
    as (Hc & _ & _ & _ & _ & _ & _ & Hs).
  split; [exact Hy|]. split; [exact Hc|].
  apply Hs. split; reflexivity.
Defined.

(** ** Failure of the answer request (C7) *)

(** When [callGeminiAPI] fails: the transport fails, the reply is not
    [ok], or its body cannot be parsed. *)
Lemma settle_fails (q : string) (o : FetchOutcome) :
  (exists e, settle q o = inl e) <->
  o = Rejected \/ exists r, o = Responded r /\ (ok r = false \/ json r = None).
Proof.
  unfold settle, callGeminiAPI, bind, fetch, response_json, throw, ret.
  destruct o as [|[okr [j|]]]; [|destruct okr..]; cbn; split.
  all: try (intros [e He]; discriminate He).
  all: try (intros _; eexists; reflexivity).
  all: try (intros _; solve [ left; reflexivity
                            | right; eexists; split; [reflexivity|]; auto ]).
  intros [H|(r & Hr & [H|H])]; try discriminate; inversion Hr; subst;
    discriminate.
Qed.



(** ** Cancelling speech (C8) *)





(** ** The request client (C5) *)

(** C5, counterexample.  The claim says that an empty question, or one of
    more than 1000 characters, fails locally without a network round trip.
    [callGeminiAPI] has no such test: the empty question is sent like any
    other. *)
Lemma C5_empty_question_is_sent :
  (forall net : Request -> FetchOutcome,
      snd (callGeminiAPI "" net []) = [ask_request ""]) /\
  fst (callGeminiAPI "" (fun _ => ok_response "yo") []) = inr "yo" /\
  ~ (forall (q : string) (net : Request -> FetchOutcome),
        q = "" \/ 1000 < String.length q ->
        snd (callGeminiAPI q net []) = []).
Proof.
  assert (Hsent : forall net : Request -> FetchOutcome,
             snd (callGeminiAPI "" net []) = [ask_request ""]).
  { intros net. unfold callGeminiAPI, bind, fetch, response_json, throw, ret.
    destruct (net (ask_request "")) as [|[[] []]]; reflexivity. }
  split; [exact Hsent|]. split; [reflexivity|].
  intros H.
  specialize (H "" (fun _ => Rejected) (or_introl eq_refl)).
  rewrite Hsent in H. discriminate H.
Qed.

(** C5, amended.  [callGeminiAPI] does not validate the question: for
    every question it sends exactly one request, the POST of that question
    to [/api/ask], and never a second one; it fails when the transport
    fails, when the reply is not [ok] and when the body cannot be parsed,
    and returns [data.response] otherwise. *)
Theorem C5_one_request_per_question
    (q : string) (net : Request -> FetchOutcome) (log : list Request) :
  snd (callGeminiAPI q net log) = log ++ [ask_request q] /\
  question (ask_request q) = q /\
  fst (callGeminiAPI q net log)
  = match net (ask_request q) with
    | Rejected => inl FetchError
    | Responded r =>
        if ok r then
          match json r with
          | Some data_response => inr data_response
          | None => inl JsonError
          end
        else inl (Err "Failed to get AI response")
    end.
Proof.
  unfold callGeminiAPI, bind, fetch, response_json, throw, ret.
  destruct (net (ask_request q)) as [|[[] []]]; cbn; repeat split; reflexivity.
Qed.

End ClientFacts.

(** * Facts about the server *)

Module ServerFacts.
Import Server.

(** ** [includes] finds substrings *)

Lemma startsWith_spec (search : string) :
  forall s : string,
    startsWith s search = true <-> exists post : string, s = search +:+ post.
Proof.
  induction search as [|a search IH]; intros s; cbn.
  - split; [intros _; exists s; reflexivity | intros _; destruct s; reflexivity].
  - destruct s as [|b s]; cbn.
    + split; [discriminate | intros [post H]; discriminate H].
    + rewrite andb_true_iff, IH. split.
      * intros [Hab [post ->]]. apply Ascii.eqb_eq in Hab as ->.
        exists post. reflexivity.
      * intros [post H]. injection H as -> ->.
        split; [apply Ascii.eqb_refl | exists post; reflexivity].
Qed.

Lemma includes_spec (s search : string) :
  includes s search = true <-> has_substring s search.
Proof.
  unfold has_substring. induction s as [|b s IH].
  - cbn [includes]. rewrite orb_false_r, startsWith_spec. split.
    + intros [post H]. exists "", post. exact H.
    + intros (pre & post & H). destruct pre as [|c pre]; [|discriminate H].
      exists post. exact H.
  - cbn [includes]. rewrite orb_true_iff, startsWith_spec, IH. split.
    + intros [[post H]|(pre & post & H)].
      * exists "", post. exact H.
      * exists (String b pre), post. cbn. rewrite H. reflexivity.
    + intros (pre & post & H). destruct pre as [|c pre].
      * left. exists post. exact H.
      * right. cbn in H. injection H as _ H. exists pre, post. exact H.
Qed.

(** ** The rate limiter (C3, C9) *)

Lemma rateLimit_new (store : gmap string ClientData) (clientId : string) (now : Z) :
  store !! clientId = None \/
  (exists d, store !! clientId = Some d /\ (resetTime d < now)%Z) ->
  rateLimit store clientId now
  = (<[clientId := {| count := 1; resetTime := now + 60000 |}]> store, Next).
Proof.
  unfold rateLimit. intros [H|(d & H & Hd)]; rewrite H; [reflexivity|].
  apply Z.ltb_lt in Hd. rewrite Hd. reflexivity.
Qed.

Lemma rateLimit_admit (store : gmap string ClientData) (clientId : string)
    (now : Z) (d : ClientData) :
  store !! clientId = Some d -> (now <= resetTime d)%Z -> (count d < 10)%Z ->
  rateLimit store clientId now
  = (<[clientId := {| count := count d + 1; resetTime := resetTime d |}]> store, Next).
Proof.
  unfold rateLimit, maxRequests. intros H Hw Hc. rewrite H.
  destruct (Z.ltb_spec (resetTime d) now); [lia|].
  destruct (Z.leb_spec 10 (count d)); [lia|]. reflexivity.
Qed.

Lemma rateLimit_reject (store : gmap string ClientData) (clientId : string)
    (now : Z) (d : ClientData) :
  store !! clientId = Some d -> (now <= resetTime d)%Z -> (10 <= count d)%Z ->
  rateLimit store clientId now = (store, Replied too_many_requests).
Proof.
  unfold rateLimit, maxRequests. intros H Hw Hc. rewrite H.
  destruct (Z.ltb_spec (resetTime d) now); [lia|].
  destruct (Z.leb_spec 10 (count d)); [|lia]. reflexivity.
Qed.

(** Requests inside the window are admitted and counted as long as the
    count stays within the maximum. *)
Lemma requests_in_window (clientId : string) (times : list Z) :
  forall (store : gmap string ClientData) (d : ClientData),
    store !! clientId = Some d ->
    Forall (fun t => (t <= resetTime d)%Z) times ->
    (count d + Z.of_nat (length times) <= 10)%Z ->
    exists store' : gmap string ClientData,
      requests store clientId times = (store', replicate (length times) Next) /\
      store' !! clientId
      = Some {| count := count d + Z.of_nat (length times);
                resetTime := resetTime d |}.
Proof.
  induction times as [|t times IH]; intros store d Hd Hin Hc.
  - exists store. split; [reflexivity|].
    rewrite Hd. destruct d as [c r]. cbn. do 2 f_equal. lia.
  - apply Forall_cons in Hin as [Ht Hin]. cbn [length] in Hc.
    cbn [requests].
    rewrite (rateLimit_admit store clientId t d Hd Ht) by lia.
    destruct (IH (<[clientId := {| count := count d + 1; resetTime := resetTime d |}]> store)
                {| count := count d + 1; resetTime := resetTime d |})
      as (store' & Hreq & Hlook).
    + apply lookup_insert_eq.
    + exact Hin.
    + cbn. lia.
    + rewrite Hreq. exists store'. split; [reflexivity|].
      rewrite Hlook. cbn. do 2 f_equal. lia.
Qed.

(** C3.  The rate limiter creates or replaces the caller's record with
    count 1 and a window of 60 seconds when there is no record or the
    window is over, admits and increments while the count is below 10, and
    rejects with 429, leaving the store as it is, once the count has
    reached 10 inside the window.  So the first request of a window and
    nine more inside it are admitted, every further request inside the
    window is rejected, and the first request after the window is admitted
    with the count back at 1. *)
Theorem C3_rateLimit_window
    (store : gmap string ClientData) (clientId : string) (now : Z) :
  (store !! clientId = None \/
   (exists d, store !! clientId = Some d /\ (resetTime d < now)%Z) ->
   rateLimit store clientId now
   = (<[clientId := {| count := 1; resetTime := now + 60000 |}]> store, Next)) /\
  (forall d : ClientData,
      store !! clientId = Some d -> (now <= resetTime d)%Z -> (count d < 10)%Z ->
      rateLimit store clientId now
      = (<[clientId := {| count := count d + 1; resetTime := resetTime d |}]> store,
         Next)) /\
  (forall d : ClientData,
      store !! clientId = Some d -> (now <= resetTime d)%Z -> (10 <= count d)%Z ->
      rateLimit store clientId now
      = (store,
         Replied {| status := 429;
                    body := ErrorBody "Too many requests. Please try again later." |})) /\
  (forall times : list Z,
      store !! clientId = None \/
      (exists d, store !! clientId = Some d /\ (resetTime d < now)%Z) ->
      length times = 9 ->
      Forall (fun t => (t <= now + 60000)%Z) times ->
      exists store10 : gmap string ClientData,
        requests store clientId (now :: times) = (store10, replicate 10 Next) /\
        store10 !! clientId = Some {| count := 10; resetTime := now + 60000 |} /\
        (forall t : Z, (t <= now + 60000)%Z ->
           rateLimit store10 clientId t = (store10, Replied too_many_requests)) /\
        (forall t : Z, (now + 60000 < t)%Z ->
           rateLimit store10 clientId t
           = (<[clientId := {| count := 1; resetTime := t + 60000 |}]> store10, Next))).
Proof.
  split; [apply rateLimit_new|].
  split; [intros d; apply rateLimit_admit|].
  split; [intros d; apply rateLimit_reject|].
  intros times Hnew Hlen Hin.
  cbn [requests]. rewrite (rateLimit_new store clientId now Hnew).
  destruct (requests_in_window clientId times
              (<[clientId := {| count := 1; resetTime := now + 60000 |}]> store)
              {| count := 1; resetTime := now + 60000 |})
    as (store10 & Hreq & Hlook).
  - apply lookup_insert_eq.
  - exact Hin.
  - cbn. lia.
  - rewrite Hreq, Hlen. exists store10. rewrite Hlen in Hlook. cbn in Hlook.
    split; [reflexivity|]. split; [exact Hlook|]. split.
    + intros t Ht. apply (rateLimit_reject _ _ _ _ Hlook); cbn; lia.
    + intros t Ht. apply rateLimit_new. right.
      eexists; split; [exact Hlook|exact Ht].
Qed.

Lemma C3_rateLimit_window_witness :
  exists store10 : gmap string ClientData,
    requests ∅ "203.0.113.7" [0; 1; 2; 3; 4; 5; 6; 7; 8; 9]%Z
    = (store10, replicate 10 Next) /\
    rateLimit store10 "203.0.113.7" 60000 = (store10, Replied too_many_requests) /\
    rateLimit store10 "203.0.113.7" 60001
    = (<["203.0.113.7" := {| count := 1; resetTime := 120001 |}]> store10, Next).
Proof.
  destruct (C3_rateLimit_window ∅ "203.0.113.7" 0) as (_ & _ & _ & Hseq).
  destruct (Hseq [1; 2; 3; 4; 5; 6; 7; 8; 9]%Z) as (store10 & Hreq & _ & Hrej & Hnew).
  - left. apply lookup_empty.
  - reflexivity.
  - repeat constructor; lia.
  - exists store10. split; [exact Hreq|]. split.
    + apply Hrej. lia.
    + apply (Hnew 60001%Z). lia.
Defined.

(** The handler answers a malformed question with 400 before it calls
    the upstream. *)
Lemma ask_malformed (upstream : Upstream) (question : JsValue) :
  malformed question ->
  exists error : string,
    ask upstream question = ({| status := 400; body := ErrorBody error |}, []).
Proof.
  destruct question as [| |b|z|q|];
    try (intros _; eexists; reflexivity).
  - intros _. unfold ask. cbn. destruct (negb b); cbn; eexists; reflexivity.
  - intros _. unfold ask. cbn. rewrite orb_true_r. eexists; reflexivity.
  - unfold ask, malformed, truthy, typeof, chars. rewrite String.eqb_refl.
    intros [->|Hlen]; [eexists; reflexivity|].
    destruct (String.eqb q ""); cbn [negb orb]; [eexists; reflexivity|].
    apply Nat.ltb_lt in Hlen. rewrite Hlen. eexists; reflexivity.
Qed.

(** C9.  The rate limiter runs before the handler looks at the body: a
    request of a caller with budget left is counted (the record is created,
    replaced or incremented) although the handler then rejects its
    malformed question with 400 and never calls the upstream. *)
Theorem C9_rejected_request_is_counted
    (store : gmap string ClientData) (clientId : string) (now : Z)
    (question : JsValue) (upstream : Upstream) :
  malformed question ->
  has_budget store clientId now ->
  exists (store' : gmap string ClientData) (error : string),
    post_api_ask store clientId now question upstream
    = (store', {| status := 400; body := ErrorBody error |}, []) /\
    store' = <[clientId := charged store clientId now]> store /\
    store' !! clientId = Some (charged store clientId now) /\
    (count (charged store clientId now)
     = match store !! clientId with
       | None => 1
       | Some d => if (resetTime d <? now)%Z then 1 else count d + 1
       end)%Z.
Proof.
  intros Hq Hb.
  destruct (ask_malformed upstream question Hq) as (error & Hask).
  exists (<[clientId := charged store clientId now]> store), error.
  unfold post_api_ask, has_budget, charged, rateLimit, windowMs, maxRequests in *.
  destruct (store !! clientId) as [d|] eqn:Hd.
  - destruct (Z.ltb_spec (resetTime d) now) as [Hexp|Hin].
    + rewrite Hask. repeat split. apply lookup_insert_eq.
    + destruct (Z.leb_spec 10 (count d)) as [Hfull|Hroom].
      * destruct Hb; lia.
      * rewrite Hask. repeat split. apply lookup_insert_eq.
  - rewrite Hask. repeat split. apply lookup_insert_eq.
Qed.

Lemma C9_rejected_request_is_counted_witness :
  malformed (JsString "") /\
  has_budget ∅ "203.0.113.7" 0 /\
  exists (store' : gmap string ClientData) (error : string),
    post_api_ask ∅ "203.0.113.7" 0 (JsString "") (fun _ => Text "hello")
    = (store', {| status := 400; body := ErrorBody error |}, []) /\
    store' !! "203.0.113.7" = Some (charged ∅ "203.0.113.7" 0).
Proof.
  assert (Hq : malformed (JsString "")) by (left; reflexivity).
  assert (Hb : has_budget ∅ "203.0.113.7" 0)
    by (unfold has_budget; rewrite lookup_empty; exact I).
  split; [exact Hq|]. split; [exact Hb|].
  destruct (C9_rejected_request_is_counted ∅ "203.0.113.7" 0 (JsString "")
              (fun _ => Text "hello") Hq Hb)
    as (store' & error & Hpost & _ & Hlook & _).
  exists store', error. split; [exact Hpost|exact Hlook].
Defined.

(** ** The retry loop (C4, C10) *)

Lemma retry_loop_step (upstream : Upstream) (prompt : string)
    (retries attempt : nat) :
  retry_loop upstream prompt (S retries) attempt
  = match upstream attempt with
    | Text t => ([GenerateContent prompt], Break t)
    | Failure message =>
        if retryable message then
          if (0 <? retries)%nat then
            (GenerateContent prompt :: Wait 2000
               :: fst (retry_loop upstream prompt retries (S attempt)),
             snd (retry_loop upstream prompt retries (S attempt)))
          else
            ([GenerateContent prompt],
             Return {| status := 429;
                       body := ErrorBody "AI service rate limit exceeded. Please try again later." |})
        else ([GenerateContent prompt], Throw message)
    end.
Proof.
  cbn [retry_loop]. destruct (upstream attempt) as [t|message]; [reflexivity|].
  destruct (retryable message); [|reflexivity].
  destruct (0 <? retries)%nat; [|reflexivity].
  destruct (retry_loop upstream prompt retries (S attempt)). reflexivity.
Qed.

(** A question that passes the two tests of the handler reaches the
    loop with a budget of 3. *)
Lemma ask_valid (upstream : Upstream) (q : string) :
  q <> "" -> String.length q <= 1000 ->
  ask upstream (JsString q)
  = match retry_loop upstream (prompt_of q) 3 0 with
    | (effects, Break response) =>
        ({| status := 200; body := ResponseBody (Some response) |}, effects)
    | (effects, ConditionFalse) =>
        ({| status := 200; body := ResponseBody None |}, effects)
    | (effects, Return r) => (r, effects)
    | (effects, Throw _) =>
        ({| status := 500;
            body := ErrorBody "Failed to generate response. Please try again." |},
         effects)
    end.
Proof.
  intros Hq Hlen. unfold ask, truthy, typeof, chars.
  rewrite String.eqb_refl.
  destruct (String.eqb_spec q ""); [contradiction|]. cbn [negb orb].
  destruct (Nat.ltb_spec 1000 (String.length q)); [lia|]. reflexivity.
Qed.

(** C4.  For a question the handler accepts: when the upstream fails
    with a retryable error twice and then succeeds, the reply is the
    success value and the upstream was called three times, with a wait of
    2000 ms before the second and before the third call; when the upstream
    always fails with a retryable error, the reply is 429 after three calls
    and two waits, and nothing follows the third call. *)
Theorem C4_retry_three_attempts (upstream : Upstream) (q : string) :
  q <> "" -> String.length q <= 1000 ->
  (forall (m0 m1 v : string),
      upstream 0 = Failure m0 -> retryable m0 = true ->
      upstream 1 = Failure m1 -> retryable m1 = true ->
      upstream 2 = Text v ->
      ask upstream (JsString q)
      = ({| status := 200; body := ResponseBody (Some v) |},
         [GenerateContent (prompt_of q); Wait 2000;
          GenerateContent (prompt_of q); Wait 2000;
          GenerateContent (prompt_of q)])) /\
  ((forall n : nat, exists m : string, upstream n = Failure m /\ retryable m = true) ->
   ask upstream (JsString q)
   = ({| status := 429;
         body := ErrorBody "AI service rate limit exceeded. Please try again later." |},
      [GenerateContent (prompt_of q); Wait 2000;
       GenerateContent (prompt_of q); Wait 2000;
       GenerateContent (prompt_of q)]) /\
   calls (snd (ask upstream (JsString q))) = 3).
Proof.
  intros Hq Hlen. rewrite (ask_valid upstream q Hq Hlen). split.
  - intros m0 m1 v H0 R0 H1 R1 H2.
    rewrite !retry_loop_step, H0, R0, H1, R1, H2. reflexivity.
  - intros Hall.
    destruct (Hall 0) as (m0 & H0 & R0).
    destruct (Hall 1) as (m1 & H1 & R1).
    destruct (Hall 2) as (m2 & H2 & R2).
    rewrite !retry_loop_step, H0, R0, H1, R1, H2, R2. split; reflexivity.
Qed.

Lemma C4_retry_three_attempts_witness :
  "hello" <> "" /\ String.length "hello" <= 1000 /\
  ask (fun n => match n with
                | 0 | 1 => Failure "[429 Too Many Requests] quota exceeded"
                | _ => Text "hi there"
                end) (JsString "hello")
  = ({| status := 200; body := ResponseBody (Some "hi there") |},
     [GenerateContent (prompt_of "hello"); Wait 2000;
      GenerateContent (prompt_of "hello"); Wait 2000;
      GenerateContent (prompt_of "hello")]) /\
  ask (fun _ => Failure "quota exceeded") (JsString "hello")
  = ({| status := 429;
        body := ErrorBody "AI service rate limit exceeded. Please try again later." |},
     [GenerateContent (prompt_of "hello"); Wait 2000;
      GenerateContent (prompt_of "hello"); Wait 2000;
      GenerateContent (prompt_of "hello")]).
Proof.
  assert (Hq : "hello" <> "") by discriminate.
  assert (Hlen : String.length "hello" <= 1000) by (cbn; lia).
  split; [exact Hq|]. split; [exact Hlen|]. split.
  - apply (proj1 (C4_retry_three_attempts _ "hello" Hq Hlen)
             "[429 Too Many Requests] quota exceeded"
             "[429 Too Many Requests] quota exceeded" "hi there");
      reflexivity.
  - apply (proj2 (C4_retry_three_attempts (fun _ => Failure "quota exceeded")
                    "hello" Hq Hlen)).
    intros n. exists "quota exceeded". split; reflexivity.
Defined.

(** C10.  An upstream failure is retried exactly when its message
    contains 429 or quota.  A retried failure is followed by a wait and
    another call, or by the 429 reply when it used up the budget.  Any
    other failure leaves the loop at once: no wait and no call follows it,
    and the reply is 500, whether it happens at the first call or after
    retries. *)
Theorem C10_retry_classification :
  (forall message : string,
      retryable message = true <->
      has_substring message "429" \/ has_substring message "quota") /\
  (forall (upstream : Upstream) (prompt message : string) (retries attempt : nat),
      upstream attempt = Failure message -> retryable message = true ->
      retry_loop upstream prompt (S retries) attempt
      = if (0 <? retries)%nat then
          (GenerateContent prompt :: Wait 2000
             :: fst (retry_loop upstream prompt retries (S attempt)),
           snd (retry_loop upstream prompt retries (S attempt)))
        else
          ([GenerateContent prompt],
           Return {| status := 429;
                     body := ErrorBody "AI service rate limit exceeded. Please try again later." |})) /\
  (forall (upstream : Upstream) (prompt message : string) (retries attempt : nat),
      upstream attempt = Failure message -> retryable message = false ->
      retry_loop upstream prompt (S retries) attempt
      = ([GenerateContent prompt], Throw message)) /\
  (forall (upstream : Upstream) (q message : string) (k : nat),
      q <> "" -> String.length q <= 1000 ->
      k < 3 ->
      (forall i : nat, i < k ->
         exists m : string, upstream i = Failure m /\ retryable m = true) ->
      upstream k = Failure message -> retryable message = false ->
      ask upstream (JsString q)
      = ({| status := 500;
            body := ErrorBody "Failed to generate response. Please try again." |},
         retried (prompt_of q) k ++ [GenerateContent (prompt_of q)])).
Proof.
  split; [|split; [|split]].
  - intros message. unfold retryable.
    rewrite orb_true_iff, !includes_spec. reflexivity.
  - intros upstream prompt message retries attempt Hu Hr.
    rewrite retry_loop_step, Hu, Hr. reflexivity.
  - intros upstream prompt message retries attempt Hu Hr.
    rewrite retry_loop_step, Hu, Hr. reflexivity.
  - intros upstream q message k Hq Hlen Hk Hbefore Hu Hr.
    rewrite (ask_valid upstream q Hq Hlen).
    destruct k as [|[|[|k]]]; [| | |lia].
    + rewrite retry_loop_step, Hu, Hr. reflexivity.
    + destruct (Hbefore 0) as (m0 & H0 & R0); [lia|].
      rewrite !retry_loop_step, H0, R0, Hu, Hr. reflexivity.
    + destruct (Hbefore 0) as (m0 & H0 & R0); [lia|].
      destruct (Hbefore 1) as (m1 & H1 & R1); [lia|].
      rewrite !retry_loop_step, H0, R0, H1, R1, Hu, Hr. reflexivity.
Qed.

Lemma C10_retry_classification_witness :
  retryable "You exceeded your current quota" = true /\
  retryable "API key not valid" = false /\
  ask (fun _ => Failure "API key not valid") (JsString "hello")
  = ({| status := 500;
        body := ErrorBody "Failed to generate response. Please try again." |},
     [GenerateContent (prompt_of "hello")]).
Proof.
  destruct C10_retry_classification as (Hiff & _ & _ & Hask).
  split; [|split].
  - apply Hiff. right. exists "You exceeded your current ", "". reflexivity.
  - reflexivity.
  - apply (Hask (fun _ => Failure "API key not valid") "hello" "API key not valid" 0).
    + discriminate.
    + cbn; lia.
    + lia.
    + intros i Hi. lia.
    + reflexivity.
    + reflexivity.
Defined.

End ServerFacts.

(** * More facts about the client *)

Module ClientSessions.
Import Client.

(** ** The conversation only grows *)

Lemma handle_appends (s : State) (e : Event) :
  clears e = false ->
  exists added : list Message, conversation (handle e s) = conversation s ++ added.
Proof.
  destruct e; try discriminate; intros _; cbn.
  - exists []. rewrite app_nil_r. unfold startListening.
    destruct (recognitionRef s); [|reflexivity].
    destruct (isListening s || isProcessing s); reflexivity.
  - exists []. rewrite app_nil_r. unfold stopListening.
    destruct (recognitionRef s); [|reflexivity].
    destruct (isListening s); reflexivity.
  - exists []. rewrite app_nil_r. unfold stopSpeaking.
    destruct (synthRef s); reflexivity.
  - exists []. rewrite app_nil_r. reflexivity.
  - eexists. reflexivity.
  - exists []. rewrite app_nil_r. reflexivity.
  - exists []. rewrite app_nil_r. reflexivity.
  - destruct (settle q o) as [err|response]; cbn.
    + exists []. rewrite app_nil_r. reflexivity.
    + exists [{| type := bot; text := response |}].
      unfold speakText. cbn. destruct (synthRef s); reflexivity.
  - exists []. rewrite app_nil_r. reflexivity.
  - exists []. rewrite app_nil_r. destruct (synthRef s) as [[]|]; reflexivity.
  - exists []. rewrite app_nil_r. destruct (synthRef s) as [[]|]; reflexivity.
Qed.

(** X1.  The conversation is append-only: through any sequence of events
    in which the clear button is not pressed, the conversation at the end
    is the conversation at the start followed by the turns added, so its
    length never decreases. *)
Theorem conversation_append_only (tr : list Event) :
  forall s : State,
    forallb (fun e => negb (clears e)) tr = true ->
    (exists added : list Message,
        conversation (run s tr) = conversation s ++ added) /\
    length (conversation s) <= length (conversation (run s tr)).
Proof.
  induction tr as [|e tr IH]; intros s Hno.
  - split; [exists []; cbn; rewrite app_nil_r; reflexivity | cbn; lia].
  - cbn [forallb] in Hno. apply andb_true_iff in Hno as [He Hno].
    apply negb_true_iff in He.
    destruct (handle_appends s e He) as (a1 & H1).
    destruct (IH (handle e s) Hno) as ((a2 & H2) & _).
    assert (Hall : conversation (run s (e :: tr)) = conversation s ++ (a1 ++ a2)).
    { cbn [run]. rewrite H2, H1, app_assoc. reflexivity. }
    split; [exists (a1 ++ a2); exact Hall|].
    rewrite Hall, length_app. lia.
Qed.

Lemma conversation_append_only_witness :
  forallb (fun e => negb (clears e)) barge_in = true /\
  length (conversation (mount true initial))
  <= length (conversation (run (mount true initial) barge_in)).
Proof.
  split; [reflexivity|].
  apply (conversation_append_only barge_in (mount true initial)). reflexivity.
Defined.

(** ** Turns and requests *)

Lemma turns_app (r : Role) (a b : list Message) :
  turns r (a ++ b) = turns r a + turns r b.
Proof.
  induction a as [|m a IH]; cbn; [reflexivity|]. rewrite IH. lia.
Qed.

Lemma remove_first_length (q : string) (l : list string) :
  existsb (String.eqb q) l = true ->
  S (length (remove_first q l)) = length l.
Proof.
  induction l as [|x l IH]; cbn; [discriminate|].
  destruct (String.eqb q x); cbn; [reflexivity|].
  intros H. rewrite IH by exact H. reflexivity.
Qed.

(** X2.  Every answer shown belongs to a question shown.  Through any
    session from the mount in which the clear button is not pressed, the
    bot turns together with the requests still in flight never outnumber
    the user turns. *)
Theorem answers_follow_questions (supported : bool) (tr : list Event) :
  follows allows_without_clearing (mount supported initial) tr = true ->
  turns bot (conversation (run (mount supported initial) tr))
  + length (pending (run (mount supported initial) tr))
  <= turns user (conversation (run (mount supported initial) tr)).
Proof.
  apply (ClientFacts.follows_invariant allows_without_clearing
           (fun s => turns bot (conversation s) + length (pending s)
                     <= turns user (conversation s))).
  - intros s e Hs Ha. unfold allows_without_clearing in Ha.
    apply andb_true_iff in Ha as [Hb Hc]. apply negb_true_iff in Hc.
    destruct e; try discriminate Hc; cbn in Hb |- *.
    + unfold startListening. destruct (recognitionRef s); [|exact Hs].
      destruct (isListening s || isProcessing s); exact Hs.
    + unfold stopListening. destruct (recognitionRef s); [|exact Hs].
      destruct (isListening s); exact Hs.
    + unfold stopSpeaking. destruct (synthRef s); exact Hs.
    + exact Hs.
    + rewrite turns_app, turns_app, length_app. cbn. lia.
    + exact Hs.
    + exact Hs.
    + pose proof (remove_first_length q (pending s) Hb) as Hlen.
      destruct (settle q o) as [err|response]; cbn.
      * lia.
      * unfold speakText. cbn.
        destruct (synthRef s); cbn; rewrite !turns_app; cbn; lia.
    + exact Hs.
    + destruct (synthRef s) as [[]|]; exact Hs.
    + destruct (synthRef s) as [[]|]; exact Hs.
  - destruct supported; cbn; lia.
Qed.

Lemma answers_follow_questions_witness :
  follows allows_without_clearing (mount true initial) barge_in = true /\
  turns bot (conversation (run (mount true initial) barge_in))
  + length (pending (run (mount true initial) barge_in))
  <= turns user (conversation (run (mount true initial) barge_in)).
Proof.
  split; [reflexivity|].
  apply (answers_follow_questions true barge_in). reflexivity.
Defined.

(** X3.  Clearing does not cancel the request in flight: when the clear
    button is pressed while an answer is awaited, the request stays
    pending, and the answer that arrives later becomes the only turn of
    the conversation, a bot turn without its question. *)
Theorem clear_keeps_pending_answer (s : State) (q response : string) :
  pending (handle ClearConversation s) = pending s /\
  isProcessing (handle ClearConversation s) = isProcessing s /\
  conversation (run s [ClearConversation; Settled q (ok_response response)])
  = [{| type := bot; text := response |}] /\
  turns user (conversation (run s [ClearConversation; Settled q (ok_response response)]))
  = 0.
Proof.
  cbn. unfold clearConversation, stopSpeaking, speakText. cbn.
  destruct (synthRef s) as [y|] eqn:Ey; cbn; rewrite ?Ey; cbn;
    repeat split; reflexivity.
Qed.

(** ** Recognition errors *)

Lemma errorMessage_not_empty (event_error : string) :
  errorMessage event_error <> "".
Proof.
  unfold errorMessage.
  repeat match goal with
         | |- context [String.eqb ?a ?b] => destruct (String.eqb a b)
         end; discriminate.
Qed.

(** X4.  A recognition error of any kind, known or unknown, ends listening
    and processing, shows a message that is never empty and leaves the
    conversation and the speaking flag alone; from Listening the component
    is Idle again. *)
Theorem recognition_error_is_shown (s : State) (event_error : string) :
  isListening (handle (RecOnError event_error) s) = false /\
  isProcessing (handle (RecOnError event_error) s) = false /\
  isSpeaking (handle (RecOnError event_error) s) = isSpeaking s /\
  error (handle (RecOnError event_error) s) <> "" /\
  conversation (handle (RecOnError event_error) s) = conversation s /\
  (session s = Some Listening ->
   session (handle (RecOnError event_error) s) = Some Idle).
Proof.
  cbn. repeat split; try reflexivity.
  - apply errorMessage_not_empty.
  - unfold session. cbn.
    destruct (isListening s), (isProcessing s), (isSpeaking s);
      congruence.
Qed.

Lemma recognition_error_is_shown_witness :
  session (run (mount true initial) [StartListening; RecOnStart]) = Some Listening /\
  session (handle (RecOnError "audio-capture")
             (run (mount true initial) [StartListening; RecOnStart])) = Some Idle.
Proof.
  split; [reflexivity|].
  apply (recognition_error_is_shown
           (run (mount true initial) [StartListening; RecOnStart]) "audio-capture").
  reflexivity.
Defined.

(** X5.  The component stays usable after a recognition error: when a
    session that was started fails and ends, [startListening] is accepted
    whatever the component was doing, clears the message and starts a new
    session; the browser can deliver the whole sequence, at whose end the
    component is listening. *)
Theorem listening_restarts_after_error (s : State) (event_error : string) :
  browser_allows s (RecOnError event_error) = true ->
  follows browser_allows s
    [RecOnError event_error; RecOnEnd; StartListening; RecOnStart] = true /\
  error (run s [RecOnError event_error; RecOnEnd; StartListening]) = "" /\
  recognitionRef (run s [RecOnError event_error; RecOnEnd; StartListening])
  = Some RecStarting /\
  isListening (run s [RecOnError event_error; RecOnEnd; StartListening; RecOnStart])
  = true.
Proof.
  intros Ha. cbn in Ha.
  destruct s as [l p sp c t er su [[]|] y pe]; cbn in Ha; try discriminate Ha;
    cbn; repeat split; reflexivity.
Qed.

Lemma listening_restarts_after_error_witness :
  browser_allows (run (mount true initial) [StartListening; RecOnStart])
    (RecOnError "no-speech") = true /\
  isListening (run (run (mount true initial) [StartListening; RecOnStart])
                 [RecOnError "no-speech"; RecOnEnd; StartListening; RecOnStart])
  = true.
Proof.
  split; [reflexivity|].
  apply (listening_restarts_after_error
           (run (mount true initial) [StartListening; RecOnStart])
           "no-speech" eq_refl).
Defined.

(** ** A whole exchange *)

Lemma existsb_eqb_last (q : string) (l : list string) :
  existsb (String.eqb q) (l ++ [q]) = true.
Proof.
  rewrite existsb_app. cbn. rewrite String.eqb_refl.
  rewrite orb_true_r. reflexivity.
Qed.

(** X6.  One exchange from Idle comes back to Idle: with recognition at
    rest and a synthesizer present, pressing the microphone, the
    recognised question, its answer and the end of the spoken answer form
    a sequence the browser can deliver, after which the component is Idle
    without error and the conversation has gained the user turn and the
    bot turn, in this order. *)
Theorem exchange_returns_to_idle (s : State) (transcript response : string) :
  session s = Some Idle ->
  recognitionRef s = Some RecIdle ->
  synthRef s <> None ->
  follows browser_allows s (exchange transcript response) = true /\
  session (run s (exchange transcript response)) = Some Idle /\
  error (run s (exchange transcript response)) = "" /\
  currentTranscript (run s (exchange transcript response)) = transcript /\
  conversation (run s (exchange transcript response))
  = conversation s ++ [{| type := user; text := transcript |};
                       {| type := bot; text := response |}].
Proof.
  intros Hs Hr Hy.
  destruct s as [l p sp c t er su rr y pe]. cbn in Hr, Hy. subst rr.
  destruct y as [y|]; [|congruence].
  unfold session in Hs. cbn in Hs.
  destruct l, p, sp; try discriminate Hs.
  cbn. rewrite existsb_eqb_last. cbn.
  repeat split; try reflexivity.
  rewrite <- app_assoc. reflexivity.
Qed.

Lemma exchange_returns_to_idle_witness :
  session (mount true initial) = Some Idle /\
  recognitionRef (mount true initial) = Some RecIdle /\
  synthRef (mount true initial) <> None /\
  session (run (mount true initial) (exchange "hi" "yo")) = Some Idle.
Proof.
  assert (Hy : synthRef (mount true initial) <> None) by (cbn; discriminate).
  split; [reflexivity|]. split; [reflexivity|]. split; [exact Hy|].
  apply (exchange_returns_to_idle (mount true initial) "hi" "yo"
           eq_refl eq_refl Hy).
Defined.

(** X7.  An answer does not make the component Speaking by itself: when
    it arrives in Processing the bot turn is appended, the utterance is
    queued and the component is Idle, with the microphone button enabled;
    Speaking begins when the browser reports the start of the utterance. *)
Theorem answer_is_queued_before_spoken (s : State) (q response : string) :
  session s = Some Processing ->
  synthRef s <> None ->
  session (handle (Settled q (ok_response response)) s) = Some Idle /\
  synthRef (handle (Settled q (ok_response response)) s) = Some SynQueued /\
  conversation (handle (Settled q (ok_response response)) s)
  = conversation s ++ [{| type := bot; text := response |}] /\
  page_offers (handle (Settled q (ok_response response)) s) StartListening
  = isSupported s /\
  browser_allows (handle (Settled q (ok_response response)) s) UttOnStart = true /\
  session (run s [Settled q (ok_response response); UttOnStart]) = Some Speaking.
Proof.
  intros Hs Hy.
  destruct s as [l p sp c t er su rr y pe]. cbn in Hy.
  destruct y as [y|]; [|congruence].
  unfold session in Hs. cbn in Hs.
  destruct l, p, sp; try discriminate Hs.
  cbn. rewrite !andb_true_r. repeat split; reflexivity.
Qed.

Lemma answer_is_queued_before_spoken_witness :
  session (run (mount true initial) awaiting_answer) = Some Processing /\
  synthRef (run (mount true initial) awaiting_answer) <> None /\
  session (handle (Settled "hi" (ok_response "yo"))
             (run (mount true initial) awaiting_answer)) = Some Idle.
Proof.
  assert (Hy : synthRef (run (mount true initial) awaiting_answer) <> None)
    by (cbn; discriminate).
  split; [reflexivity|]. split; [exact Hy|].
  apply (answer_is_queued_before_spoken
           (run (mount true initial) awaiting_answer) "hi" "yo" eq_refl Hy).
Defined.

(** ** Flags and browser objects *)

Lemma coherent_handle (s : State) (e : Event) :
  coherent s -> browser_allows s e = true -> coherent (handle e s).
Proof.
  unfold coherent.
  destruct e; try ClientFacts.by_outcome o; ClientFacts.by_cases s; cbn;
    intros (H1 & H2) Ha;
    try specialize (H1 eq_refl); try specialize (H2 eq_refl);
    split; intros; try reflexivity; try congruence;
    try (destruct pe; discriminate).
Qed.

(** X8.  Through every sequence of events the browser can deliver, the
    component shows listening only inside a recognition session and shows
    processing only while a request is in flight; and whatever that
    request settles with, success or any failure, processing is over. *)
Theorem flags_match_browser (supported : bool) (tr : list Event) :
  follows browser_allows (mount supported initial) tr = true ->
  coherent (run (mount supported initial) tr) /\
  (forall (q : string) (o : FetchOutcome),
      isProcessing (handle (Settled q o) (run (mount supported initial) tr))
      = false).
Proof.
  intros Hf. split.
  - revert Hf.
    apply (ClientFacts.follows_invariant browser_allows coherent coherent_handle).
    destruct supported; split; cbn; congruence.
  - intros q o. cbn. reflexivity.
Qed.

Lemma flags_match_browser_witness :
  follows browser_allows (mount true initial) awaiting_answer = true /\
  coherent (run (mount true initial) awaiting_answer).
Proof.
  split; [reflexivity|].
  apply (flags_match_browser true awaiting_answer). reflexivity.
Defined.

(** ** An unsupported browser *)

Lemma inert_handle (s : State) (e : Event) :
  inert s -> browser_allows s e = true -> inert (handle e s).
Proof.
  destruct s as [l p sp c t er su rr y pe]. unfold inert. cbn.
  intros (-> & -> & -> & -> & -> & -> & -> & ->).
  destruct e; cbn; intros Ha; try discriminate Ha;
    repeat split; reflexivity.
Qed.

(** X9.  In a browser without speech recognition or synthesis the
    component never listens, processes or speaks and never gains a turn,
    whatever is invoked: the browser has no callback to deliver, the
    operations find no recognition and no synthesizer, and the page offers
    none of them. *)
Theorem unsupported_browser_is_inert (tr : list Event) :
  follows browser_allows (mount false initial) tr = true ->
  inert (run (mount false initial) tr) /\
  session (run (mount false initial) tr) = Some Idle /\
  (forall e : Event,
      page_offers (run (mount false initial) tr) e
      && browser_allows (run (mount false initial) tr) e = false).
Proof.
  intros Hf.
  assert (Hin : inert (run (mount false initial) tr)).
  { revert Hf.
    apply (ClientFacts.follows_invariant browser_allows inert inert_handle).
    repeat split; reflexivity. }
  split; [exact Hin|].
  destruct (run (mount false initial) tr) as [l p sp c t er su rr y pe].
  unfold inert in Hin. cbn in Hin.
  destruct Hin as (-> & -> & -> & -> & -> & -> & -> & ->).
  split; [reflexivity|].
  intros e. destruct e; reflexivity.
Qed.

Lemma unsupported_browser_is_inert_witness :
  follows browser_allows (mount false initial)
    [StartListening; StopSpeaking; ClearConversation] = true /\
  inert (run (mount false initial) [StartListening; StopSpeaking; ClearConversation]).
Proof.
  split; [reflexivity|].
  apply (unsupported_browser_is_inert
           [StartListening; StopSpeaking; ClearConversation]).
  reflexivity.
Defined.

(** ** The transcript box *)

Lemma last_user_app (c : list Message) (m : Message) :
  last_user (c ++ [m])
  = if is_role user m then Some (text m) else last_user c.
Proof.
  induction c as [|x c IH]; cbn [app last_user].
  - destruct (is_role user m); reflexivity.
  - rewrite IH. destruct (is_role user m); [reflexivity|].
    reflexivity.
Qed.

Lemma transcript_shown_handle (s : State) (e : Event) :
  transcript_shown s -> transcript_shown (handle e s).
Proof.
  unfold transcript_shown. intros Hs. destruct e; cbn.
  - unfold startListening. destruct (recognitionRef s); [|exact Hs].
    destruct (isListening s || isProcessing s); [exact Hs|]. left. reflexivity.
  - unfold stopListening. destruct (recognitionRef s); [|exact Hs].
    destruct (isListening s); exact Hs.
  - unfold stopSpeaking. destruct (synthRef s); exact Hs.
  - unfold clearConversation, stopSpeaking. cbn.
    destruct (synthRef s); left; reflexivity.
  - exact Hs.
  - right. rewrite last_user_app. reflexivity.
  - exact Hs.
  - exact Hs.
  - destruct (settle q o) as [err|response]; cbn; [exact Hs|].
    unfold speakText. cbn.
    destruct (synthRef s); cbn; rewrite last_user_app; exact Hs.
  - exact Hs.
  - destruct (synthRef s) as [[]|]; exact Hs.
  - destruct (synthRef s) as [[]|]; exact Hs.
Qed.

(** X20.  The transcript box never shows a stale question: after any
    sequence of events whatever, from either mount, the current transcript
    is empty or is the text of the latest user turn of the conversation. *)
Theorem transcript_is_latest_question (supported : bool) (tr : list Event) :
  transcript_shown (run (mount supported initial) tr).
Proof.
  assert (Hrun : forall (evs : list Event) (s : State),
             transcript_shown s -> transcript_shown (run s evs)).
  { induction evs as [|e evs IH]; intros s Hs; [exact Hs|].
    cbn [run]. apply IH, transcript_shown_handle, Hs. }
  apply Hrun. left. destruct supported; reflexivity.
Qed.

End ClientSessions.

(** * More facts about the server *)

Module ServerRequests.
Import Server.

(** ** Callers do not interfere *)

Lemma rateLimit_other (store : gmap string ClientData) (clientId other : string)
    (now : Z) :
  other <> clientId ->
  fst (rateLimit store clientId now) !! other = store !! other.
Proof.
  intros Hne. unfold rateLimit.
  destruct (store !! clientId) as [d|]; cbn.
  - destruct (resetTime d <? now)%Z; cbn.
    + apply lookup_insert_ne. congruence.
    + destruct (maxRequests <=? count d)%Z; cbn; [reflexivity|].
      apply lookup_insert_ne. congruence.
  - apply lookup_insert_ne. congruence.
Qed.

Lemma rateLimit_own (store1 store2 : gmap string ClientData) (clientId : string)
    (now : Z) :
  store1 !! clientId = store2 !! clientId ->
  snd (rateLimit store1 clientId now) = snd (rateLimit store2 clientId now) /\
  fst (rateLimit store1 clientId now) !! clientId
  = fst (rateLimit store2 clientId now) !! clientId.
Proof.
  intros Heq. unfold rateLimit. rewrite <- Heq.
  destruct (store1 !! clientId) as [d|] eqn:Hd; cbn.
  - destruct (resetTime d <? now)%Z; cbn.
    + rewrite !lookup_insert_eq. split; reflexivity.
    + destruct (maxRequests <=? count d)%Z; cbn.
      * split; [reflexivity|]. rewrite Hd. exact Heq.
      * rewrite !lookup_insert_eq. split; reflexivity.
  - rewrite !lookup_insert_eq. split; reflexivity.
Qed.

Lemma requests_own (clientId : string) (times : list Z) :
  forall store1 store2 : gmap string ClientData,
    store1 !! clientId = store2 !! clientId ->
    snd (requests store1 clientId times) = snd (requests store2 clientId times) /\
    fst (requests store1 clientId times) !! clientId
    = fst (requests store2 clientId times) !! clientId.
Proof.
  induction times as [|now times IH]; intros store1 store2 Heq; cbn [requests].
  - split; [reflexivity|exact Heq].
  - destruct (rateLimit_own store1 store2 clientId now Heq) as (Hv & Hl).
    destruct (rateLimit store1 clientId now) as [s1 m1].
    destruct (rateLimit store2 clientId now) as [s2 m2].
    cbn in Hv, Hl. subst m2.
    destruct (IH s1 s2 Hl) as (Hvs & Hls).
    destruct (requests s1 clientId times) as [s1' ms1].
    destruct (requests s2 clientId times) as [s2' ms2].
    cbn in *. subst ms2. split; [reflexivity|exact Hls].
Qed.

(** X10.  The limiter treats every caller on its own: in any sequence of
    arrivals of any callers, the verdicts one caller receives and the
    record it ends with are those it would get if only its own requests
    had been made. *)
Theorem callers_are_independent (clientId : string) (reqs : list (string * Z)) :
  forall store : gmap string ClientData,
    own_verdicts clientId (snd (arrivals store reqs))
    = snd (requests store clientId (own_times clientId reqs)) /\
    fst (arrivals store reqs) !! clientId
    = fst (requests store clientId (own_times clientId reqs)) !! clientId.
Proof.
  induction reqs as [|[c now] reqs IH]; intros store.
  - split; reflexivity.
  - cbn [arrivals own_times].
    destruct (String.eqb_spec c clientId) as [->|Hne].
    + cbn [requests].
      destruct (rateLimit store clientId now) as [s1 m1].
      destruct (IH s1) as (Hv & Hl).
      destruct (arrivals s1 reqs) as [s' ms].
      destruct (requests s1 clientId (own_times clientId reqs)) as [s'' ms'].
      cbn in *. rewrite String.eqb_refl, Hv. split; [reflexivity|exact Hl].
    + pose proof (rateLimit_other store c clientId now) as Hother.
      destruct (rateLimit store c now) as [s1 m1]. cbn in Hother.
      destruct (IH s1) as (Hv & Hl).
      destruct (requests_own clientId (own_times clientId reqs) s1 store)
        as (Hv' & Hl'); [apply Hother; congruence|].
      destruct (arrivals s1 reqs) as [s' ms]. cbn in *.
      destruct (String.eqb_spec c clientId); [contradiction|].
      rewrite Hv, Hv', Hl, Hl'. split; reflexivity.
Qed.

(** ** When the limiter rejects *)

(** X11.  The limiter rejects exactly when the caller has a record whose
    window is not over and whose count has reached 10; its reply is then
    the 429 reply and the store is left as it was.  In every other case
    the request goes on to the handler. *)
Theorem rateLimit_rejects_exactly_when_full
    (store : gmap string ClientData) (clientId : string) (now : Z) :
  (snd (rateLimit store clientId now) <> Next <->
   exists d : ClientData,
     store !! clientId = Some d /\ (now <= resetTime d)%Z /\ (10 <= count d)%Z) /\
  (snd (rateLimit store clientId now) <> Next ->
   rateLimit store clientId now = (store, Replied too_many_requests)).
Proof.
  unfold rateLimit, maxRequests.
  destruct (store !! clientId) as [d|] eqn:Hd; cbn.
  - destruct (Z.ltb_spec (resetTime d) now); cbn.
    + split; [split|]; [congruence| |congruence].
      intros (d' & Hd' & Hw & _). injection Hd' as <-. lia.
    + destruct (Z.leb_spec 10 (count d)); cbn.
      * split; [split|]; [|congruence|reflexivity].
        intros _. exists d. repeat split; [lia|assumption].
      * split; [split|]; [congruence| |congruence].
        intros (d' & Hd' & _ & Hc). injection Hd' as <-. lia.
  - split; [split|]; [congruence| |congruence].
    intros (d' & Hd' & _). discriminate Hd'.
Qed.

Lemma rateLimit_rejects_exactly_when_full_witness :
  snd (rateLimit {["203.0.113.7" := {| count := 10; resetTime := 60000 |}]}
         "203.0.113.7" 100) <> Next /\
  rateLimit {["203.0.113.7" := {| count := 10; resetTime := 60000 |}]}
    "203.0.113.7" 100
  = ({["203.0.113.7" := {| count := 10; resetTime := 60000 |}]},
     Replied too_many_requests).
Proof.
  destruct (rateLimit_rejects_exactly_when_full
              {["203.0.113.7" := {| count := 10; resetTime := 60000 |}]}
              "203.0.113.7" 100) as (Hiff & Hreply).
  assert (Hno : snd (rateLimit
                       {["203.0.113.7" := {| count := 10; resetTime := 60000 |}]}
                       "203.0.113.7" 100) <> Next).
  { apply Hiff. exists {| count := 10; resetTime := 60000 |}.
    split; [apply lookup_singleton_eq|]. cbn. lia. }
  split; [exact Hno|]. apply Hreply. exact Hno.
Defined.

(** ** Counts stay within the limit *)

Lemma rateLimit_within_limit (store : gmap string ClientData)
    (clientId : string) (now : Z) :
  within_limit store -> within_limit (fst (rateLimit store clientId now)).
Proof.
  unfold within_limit, rateLimit, maxRequests. intros Hall.
  destruct (store !! clientId) as [d|] eqn:Hd; cbn.
  - pose proof (map_Forall_lookup_1 _ _ _ _ Hall Hd) as Hin. cbn in Hin.
    destruct (Z.ltb_spec (resetTime d) now); cbn.
    + apply map_Forall_insert_2; [cbn; lia|exact Hall].
    + destruct (Z.leb_spec 10 (count d)); cbn; [exact Hall|].
      apply map_Forall_insert_2; [cbn; lia|exact Hall].
  - apply map_Forall_insert_2; [cbn; lia|exact Hall].
Qed.

(** X12.  No record ever counts more than 10 or less than 1: a store in
    which every count is within these bounds stays so through any sequence
    of arrivals of any callers at any times, and the empty store the
    process starts with is such a store. *)
Theorem counts_stay_within_limit (reqs : list (string * Z)) :
  forall store : gmap string ClientData,
    within_limit store ->
    within_limit (fst (arrivals store reqs)) /\
    within_limit (fst (arrivals ∅ reqs)).
Proof.
  assert (Hkeep : forall (store : gmap string ClientData),
             within_limit store -> within_limit (fst (arrivals store reqs))).
  { induction reqs as [|[c now] reqs IH]; intros store Hall; [exact Hall|].
    cbn [arrivals].
    pose proof (rateLimit_within_limit store c now Hall) as H1.
    destruct (rateLimit store c now) as [s1 m1]. cbn in H1.
    specialize (IH s1 H1).
    destruct (arrivals s1 reqs) as [s' ms]. exact IH. }
  intros store Hall. split; [apply Hkeep; exact Hall|].
  apply Hkeep. apply map_Forall_empty.
Qed.

Lemma counts_stay_within_limit_witness :
  within_limit (∅ : gmap string ClientData) /\
  within_limit
    (fst (arrivals ∅ [("203.0.113.7", 0%Z); ("198.51.100.2", 5%Z);
                      ("203.0.113.7", 70000%Z)])).
Proof.
  assert (H0 : within_limit (∅ : gmap string ClientData))
    by apply map_Forall_empty.
  split; [exact H0|].
  apply (proj1 (counts_stay_within_limit
                  [("203.0.113.7", 0%Z); ("198.51.100.2", 5%Z);
                   ("203.0.113.7", 70000%Z)] ∅ H0)).
Defined.

(** ** The window is fixed *)

Lemma requests_app (clientId : string) (times1 times2 : list Z) :
  forall store : gmap string ClientData,
    requests store clientId (times1 ++ times2)
    = (fst (requests (fst (requests store clientId times1)) clientId times2),
       snd (requests store clientId times1)
       ++ snd (requests (fst (requests store clientId times1)) clientId times2)).
Proof.
  induction times1 as [|now times1 IH]; intros store; cbn [app requests].
  - cbn. destruct (requests store clientId times2). reflexivity.
  - destruct (rateLimit store clientId now) as [s1 m1].
    rewrite IH.
    destruct (requests s1 clientId times1) as [s1' ms1]. cbn.
    destruct (requests s1' clientId times2) as [s2 ms2]. reflexivity.
Qed.

(** X13.  Rejected requests cost nothing and gain nothing: once a caller
    is at the maximum, any number of further requests inside the window
    are all rejected and leave the store exactly as it was, so they do not
    push the end of the window back; the first request after the end of
    the window is admitted. *)
Theorem rejections_do_not_extend_window
    (clientId : string) (times : list Z) (store : gmap string ClientData)
    (d : ClientData) :
  store !! clientId = Some d ->
  (10 <= count d)%Z ->
  Forall (fun t => (t <= resetTime d)%Z) times ->
  requests store clientId times
  = (store, replicate (length times) (Replied too_many_requests)) /\
  (forall t : Z,
      (resetTime d < t)%Z ->
      snd (requests store clientId (times ++ [t]))
      = replicate (length times) (Replied too_many_requests) ++ [Next]).
Proof.
  intros Hd Hc Hin.
  assert (Hrej : requests store clientId times
                 = (store, replicate (length times) (Replied too_many_requests))).
  { induction Hin as [|t times Ht Hin IH]; [reflexivity|].
    cbn [requests length replicate].
    rewrite (ServerFacts.rateLimit_reject store clientId t d Hd Ht Hc).
    rewrite IH. reflexivity. }
  split; [exact Hrej|].
  intros t Ht. rewrite requests_app, Hrej. cbn [fst snd requests].
  rewrite (ServerFacts.rateLimit_new store clientId t)
    by (right; exists d; split; assumption).
  reflexivity.
Qed.

Lemma rejections_do_not_extend_window_witness :
  requests {["203.0.113.7" := {| count := 10; resetTime := 60000 |}]}
    "203.0.113.7" [100; 200; 60000]%Z
  = ({["203.0.113.7" := {| count := 10; resetTime := 60000 |}]},
     replicate 3 (Replied too_many_requests)).
Proof.
  apply (rejections_do_not_extend_window "203.0.113.7" [100; 200; 60000]%Z
           {["203.0.113.7" := {| count := 10; resetTime := 60000 |}]}
           {| count := 10; resetTime := 60000 |}).
  - apply lookup_singleton_eq.
  - cbn. lia.
  - repeat constructor; cbn; lia.
Defined.

(** X14.  The window is fixed, not sliding: a caller can be admitted 20
    times in a row around the end of a window.  The first request of a
    window and nine more up to its last millisecond are admitted, and so
    are a request right after the window and nine more in the window this
    one opens. *)
Theorem burst_across_window_boundary
    (store : gmap string ClientData) (clientId : string)
    (t0 t1 : Z) (times0 times1 : list Z) :
  store !! clientId = None \/
  (exists d, store !! clientId = Some d /\ (resetTime d < t0)%Z) ->
  length times0 = 9 -> Forall (fun t => (t <= t0 + 60000)%Z) times0 ->
  (t0 + 60000 < t1)%Z ->
  length times1 = 9 -> Forall (fun t => (t <= t1 + 60000)%Z) times1 ->
  snd (requests store clientId ((t0 :: times0) ++ (t1 :: times1)))
  = replicate 20 Next.
Proof.
  intros Hnew Hl0 Hin0 Hlate Hl1 Hin1.
  rewrite requests_app. cbn [requests].
  rewrite (ServerFacts.rateLimit_new store clientId t0 Hnew).
  destruct (ServerFacts.requests_in_window clientId times0
              (<[clientId := {| count := 1; resetTime := t0 + 60000 |}]> store)
              {| count := 1; resetTime := t0 + 60000 |})
    as (store10 & Hreq0 & Hlook0);
    [apply lookup_insert_eq | exact Hin0 | cbn; lia |].
  rewrite Hreq0, Hl0. cbn [fst snd]. rewrite Hl0 in Hlook0. cbn in Hlook0.
  rewrite (ServerFacts.rateLimit_new store10 clientId t1)
    by (right; eexists; split; [exact Hlook0|exact Hlate]).
  destruct (ServerFacts.requests_in_window clientId times1
              (<[clientId := {| count := 1; resetTime := t1 + 60000 |}]> store10)
              {| count := 1; resetTime := t1 + 60000 |})
    as (store20 & Hreq1 & _);
    [apply lookup_insert_eq | exact Hin1 | cbn; lia |].
  rewrite Hreq1, Hl1. reflexivity.
Qed.

Lemma burst_across_window_boundary_witness :
  snd (requests ∅ "203.0.113.7"
         ((0 :: replicate 9 60000) ++ (60001 :: replicate 9 60001))%Z)
  = replicate 20 Next.
Proof.
  apply (burst_across_window_boundary ∅ "203.0.113.7" 0 60001
           (replicate 9 60000%Z) (replicate 9 60001%Z)).
  - left. apply lookup_empty.
  - reflexivity.
  - repeat constructor; lia.
  - lia.
  - reflexivity.
  - repeat constructor; lia.
Defined.

(** ** The retry loop for any budget *)

Lemma calls_retried (prompt : string) (k : nat) :
  calls (retried prompt k ++ [GenerateContent prompt]) = S k /\
  total_wait (retried prompt k ++ [GenerateContent prompt])
  = (2000 * Z.of_nat k)%Z.
Proof.
  induction k as [|k [IHc IHw]]; [split; reflexivity|].
  cbn [retried app calls total_wait]. rewrite IHc, IHw. split; [reflexivity|lia].
Qed.

(** X15.  With a budget of [n + 1] attempts, the first outcome that is
    not a retryable failure decides: after [k <= n] retryable failures a
    text leaves the loop with that text and an error that is not
    retryable is thrown, in both cases after [k + 1] calls with a wait of
    2000 ms before each call but the first, and nothing after. *)
Theorem retry_loop_first_decisive_outcome
    (upstream : Upstream) (prompt : string) (k : nat) :
  forall n attempt : nat,
    k <= n ->
    (forall i : nat, i < k ->
       exists m : string, upstream (attempt + i) = Failure m /\ retryable m = true) ->
    (forall v : string,
        upstream (attempt + k) = Text v ->
        retry_loop upstream prompt (S n) attempt
        = (retried prompt k ++ [GenerateContent prompt], Break v)) /\
    (forall message : string,
        upstream (attempt + k) = Failure message -> retryable message = false ->
        retry_loop upstream prompt (S n) attempt
        = (retried prompt k ++ [GenerateContent prompt], Throw message)).
Proof.
  induction k as [|k IH]; intros n attempt Hk Hbefore.
  - rewrite Nat.add_0_r. split.
    + intros v Hv. rewrite ServerFacts.retry_loop_step, Hv. reflexivity.
    + intros message Hm Hr.
      rewrite ServerFacts.retry_loop_step, Hm, Hr. reflexivity.
  - destruct n as [|n]; [lia|].
    destruct (Hbefore 0) as (m0 & H0 & R0); [lia|].
    rewrite Nat.add_0_r in H0.
    destruct (IH n (S attempt)) as (IHv & IHm); [lia| |].
    { intros i Hi. destruct (Hbefore (S i)) as (m & Hm & Hr); [lia|].
      exists m. replace (S attempt + i) with (attempt + S i) by lia.
      split; assumption. }
    replace (attempt + S k) with (S attempt + k) by lia.
    split.
    + intros v Hv.
      rewrite ServerFacts.retry_loop_step, H0, R0. cbn [Nat.ltb Nat.leb].
      rewrite (IHv v Hv). reflexivity.
    + intros message Hm Hr.
      rewrite ServerFacts.retry_loop_step, H0, R0. cbn [Nat.ltb Nat.leb].
      rewrite (IHm message Hm Hr). reflexivity.
Qed.

Lemma retry_loop_first_decisive_outcome_witness :
  retry_loop (fun i => match i with
                       | 0 => Failure "quota"
                       | _ => Text "hello"
                       end) "p" 5 0
  = (retried "p" 1 ++ [GenerateContent "p"], Break "hello").
Proof.
  apply (proj1 (retry_loop_first_decisive_outcome
                  (fun i => match i with
                            | 0 => Failure "quota"
                            | _ => Text "hello"
                            end) "p" 1 4 0 ltac:(lia)
                  ltac:(intros [|i] Hi; [exists "quota"; split; reflexivity | lia]))
           "hello" eq_refl).
Defined.

(** X16.  The budget bounds the loop, whatever it is: when every attempt
    fails with a retryable error, a loop with a budget of [n + 1] makes
    exactly [n + 1] calls with [n] waits of 2000 ms between them and then
    answers 429. *)
Theorem retry_loop_exhausts_budget (upstream : Upstream) (prompt : string) (n : nat) :
  forall attempt : nat,
    (forall i : nat, i <= n ->
       exists m : string, upstream (attempt + i) = Failure m /\ retryable m = true) ->
    retry_loop upstream prompt (S n) attempt
    = (retried prompt n ++ [GenerateContent prompt], Return upstream_rate_limited) /\
    calls (fst (retry_loop upstream prompt (S n) attempt)) = S n /\
    total_wait (fst (retry_loop upstream prompt (S n) attempt))
    = (2000 * Z.of_nat n)%Z.
Proof.
  assert (Hloop : forall attempt : nat,
             (forall i : nat, i <= n ->
                exists m : string,
                  upstream (attempt + i) = Failure m /\ retryable m = true) ->
             retry_loop upstream prompt (S n) attempt
             = (retried prompt n ++ [GenerateContent prompt],
                Return upstream_rate_limited)).
  { induction n as [|n IH]; intros attempt Hall.
    - destruct (Hall 0) as (m0 & H0 & R0); [lia|]. rewrite Nat.add_0_r in H0.
      rewrite ServerFacts.retry_loop_step, H0, R0. reflexivity.
    - destruct (Hall 0) as (m0 & H0 & R0); [lia|]. rewrite Nat.add_0_r in H0.
      rewrite ServerFacts.retry_loop_step, H0, R0. cbn [Nat.ltb Nat.leb].
      rewrite (IH (S attempt)); [reflexivity|].
      intros i Hi. destruct (Hall (S i)) as (m & Hm & Hr); [lia|].
      exists m. replace (S attempt + i) with (attempt + S i) by lia.
      split; assumption. }
  intros attempt Hall. rewrite (Hloop attempt Hall). cbn [fst].
  split; [reflexivity|]. apply calls_retried.
Qed.

Lemma retry_loop_exhausts_budget_witness :
  retry_loop (fun _ => Failure "429") "p" 5 0
  = (retried "p" 4 ++ [GenerateContent "p"], Return upstream_rate_limited).
Proof.
  apply (retry_loop_exhausts_budget (fun _ => Failure "429") "p" 4 0).
  intros i Hi. exists "429". split; reflexivity.
Defined.

(** Whatever the upstream does, the loop makes at least one call and at
    most as many as its budget, waits before each call but the first, and
    is left with a text, a thrown error or the 429 reply. *)
Lemma retry_loop_shape (upstream : Upstream) (prompt : string) (n : nat) :
  forall attempt : nat,
  exists k : nat,
    k <= n /\
    fst (retry_loop upstream prompt (S n) attempt)
    = retried prompt k ++ [GenerateContent prompt] /\
    ((exists v, snd (retry_loop upstream prompt (S n) attempt) = Break v) \/
     (exists m, snd (retry_loop upstream prompt (S n) attempt) = Throw m) \/
     snd (retry_loop upstream prompt (S n) attempt) = Return upstream_rate_limited).
Proof.
  induction n as [|n IH]; intros attempt; rewrite ServerFacts.retry_loop_step.
  - exists 0. split; [lia|].
    destruct (upstream attempt) as [t|message]; cbn.
    + split; [reflexivity|]. left. eexists; reflexivity.
    + destruct (retryable message); cbn; (split; [reflexivity|]).
      * right. right. reflexivity.
      * right. left. eexists; reflexivity.
  - destruct (upstream attempt) as [t|message].
    + exists 0. split; [lia|]. split; [reflexivity|]. left. eexists; reflexivity.
    + destruct (retryable message).
      * cbn [Nat.ltb Nat.leb]. destruct (IH (S attempt)) as (k & Hk & Hf & Hs).
        exists (S k). split; [lia|]. cbn [fst snd]. rewrite Hf.
        split; [reflexivity|exact Hs].
      * exists 0. split; [lia|]. split; [reflexivity|].
        right. left. eexists; reflexivity.
Qed.

(** ** The handler on any question and any upstream *)

Lemma well_formed_question (question : JsValue) :
  malformed question \/
  exists q : string,
    question = JsString q /\ q <> "" /\ String.length q <= 1000.
Proof.
  destruct question as [| |b|z|q|]; try (left; exact I).
  destruct (String.eqb_spec q "") as [->|Hq]; [left; left; reflexivity|].
  destruct (Nat.ltb_spec 1000 (String.length q)) as [Hlong|Hshort].
  - left. right. exact Hlong.
  - right. exists q. repeat split; assumption.
Qed.

Lemma well_formed_not_malformed (q : string) :
  q <> "" -> String.length q <= 1000 -> ~ malformed (JsString q).
Proof. intros Hq Hlen [H|H]; [contradiction|lia]. Qed.

(** X17.  The handler answers 400 exactly for a malformed question
    (missing, not a string, empty, or longer than 1000 characters), and a
    question answered with 400 never reaches the upstream. *)
Theorem ask_rejects_exactly_malformed (upstream : Upstream) (question : JsValue) :
  (status (fst (ask upstream question)) = 400%Z <-> malformed question) /\
  (status (fst (ask upstream question)) = 400%Z ->
   snd (ask upstream question) = []).
Proof.
  destruct (well_formed_question question) as [Hbad|(q & -> & Hq & Hlen)].
  - destruct (ServerFacts.ask_malformed upstream question Hbad) as (error & ->).
    cbn. split; [split; [intros _; exact Hbad|reflexivity]|reflexivity].
  - assert (Hstatus : status (fst (ask upstream (JsString q))) <> 400%Z).
    { rewrite (ServerFacts.ask_valid upstream q Hq Hlen).
      destruct (retry_loop_shape upstream (prompt_of q) 2 0)
        as (k & _ & _ & [[v Hs]|[[m Hs]|Hs]]);
        destruct (retry_loop upstream (prompt_of q) 3 0) as [effects exit];
        cbn in Hs; subst exit; cbn; discriminate. }
    split; [split|]; [contradiction| |contradiction].
    intros Hbad. exfalso.
    exact (well_formed_not_malformed q Hq Hlen Hbad).
Qed.

Lemma ask_rejects_exactly_malformed_witness :
  malformed (JsNumber 5) /\
  status (fst (ask (fun _ => Text "hello") (JsNumber 5))) = 400%Z /\
  snd (ask (fun _ => Text "hello") (JsNumber 5)) = [].
Proof.
  destruct (ask_rejects_exactly_malformed (fun _ => Text "hello") (JsNumber 5))
    as (Hiff & Hnone).
  assert (Hbad : malformed (JsNumber 5)) by exact I.
  split; [exact Hbad|]. split; [apply Hiff; exact Hbad|].
  apply Hnone. apply Hiff. exact Hbad.
Defined.

(** X18.  Whatever the upstream does, the handler calls it at most three
    times for one request and waits 2000 ms before each call but the
    first, so at most 4000 ms in all; the status is 200, 400, 429 or 500,
    and a 200 reply always carries a response text. *)
Theorem ask_is_bounded (upstream : Upstream) (question : JsValue) :
  calls (snd (ask upstream question)) <= 3 /\
  (total_wait (snd (ask upstream question))
   = 2000 * Z.of_nat (calls (snd (ask upstream question)) - 1))%Z /\
  (total_wait (snd (ask upstream question)) <= 4000)%Z /\
  (status (fst (ask upstream question)) = 200%Z \/
   status (fst (ask upstream question)) = 400%Z \/
   status (fst (ask upstream question)) = 429%Z \/
   status (fst (ask upstream question)) = 500%Z) /\
  (status (fst (ask upstream question)) = 200%Z ->
   exists v : string,
     body (fst (ask upstream question)) = ResponseBody (Some v) /\
     calls (snd (ask upstream question)) >= 1).
Proof.
  destruct (well_formed_question question) as [Hbad|(q & -> & Hq & Hlen)].
  - destruct (ServerFacts.ask_malformed upstream question Hbad) as (error & ->).
    cbn. split; [lia|]. split; [reflexivity|]. split; [lia|].
    split; [right; left; reflexivity|discriminate].
  - rewrite (ServerFacts.ask_valid upstream q Hq Hlen).
    destruct (retry_loop_shape upstream (prompt_of q) 2 0)
      as (k & Hk & Hf & Hs).
    destruct (calls_retried (prompt_of q) k) as (Hc & Hw).
    destruct (retry_loop upstream (prompt_of q) 3 0) as [effects exit].
    cbn in Hf, Hs. subst effects.
    destruct Hs as [[v ->] | [[m ->] | ->]]; cbn [fst snd status body];
      rewrite Hc, Hw;
      (split; [lia|]); (split; [f_equal; lia|]); (split; [lia|]);
      (split; [auto|]); try discriminate.
    intros _. exists v. split; [reflexivity|lia].
Qed.

Lemma ask_is_bounded_witness :
  status (fst (ask (fun _ => Text "hi there") (JsString "hello"))) = 200%Z /\
  exists v : string,
    body (fst (ask (fun _ => Text "hi there") (JsString "hello")))
    = ResponseBody (Some v) /\
    calls (snd (ask (fun _ => Text "hi there") (JsString "hello"))) >= 1.
Proof.
  split; [reflexivity|].
  apply (ask_is_bounded (fun _ => Text "hi there") (JsString "hello")).
  reflexivity.
Defined.

(** ** The route *)

(** X19.  A caller over the limit is stopped at the door: the reply is
    429, the store is unchanged, the question is not even validated and
    the upstream is not called, whatever the question.  Conversely the
    upstream is called only for a well-formed question of a caller the
    limiter admitted. *)
Theorem route_shields_upstream
    (store : gmap string ClientData) (clientId : string) (now : Z)
    (question : JsValue) (upstream : Upstream) :
  (forall d : ClientData,
      store !! clientId = Some d -> (now <= resetTime d)%Z -> (10 <= count d)%Z ->
      post_api_ask store clientId now question upstream
      = (store, too_many_requests, [])) /\
  (snd (post_api_ask store clientId now question upstream) <> [] ->
   snd (rateLimit store clientId now) = Next /\ ~ malformed question).
Proof.
  split.
  - intros d Hd Hw Hc. unfold post_api_ask.
    rewrite (ServerFacts.rateLimit_reject store clientId now d Hd Hw Hc).
    reflexivity.
  - unfold post_api_ask.
    destruct (rateLimit store clientId now) as [store' [|r]]; cbn;
      [|intros H; contradiction].
    destruct (well_formed_question question) as [Hbad|(q & -> & Hq & Hlen)].
    + destruct (ServerFacts.ask_malformed upstream question Hbad) as (error & ->).
      cbn. intros H; contradiction.
    + intros _. split; [reflexivity|].
      apply well_formed_not_malformed; assumption.
Qed.

Lemma route_shields_upstream_witness :
  post_api_ask {["203.0.113.7" := {| count := 10; resetTime := 60000 |}]}
    "203.0.113.7" 100 (JsString "hello") (fun _ => Text "hi there")
  = ({["203.0.113.7" := {| count := 10; resetTime := 60000 |}]},
     too_many_requests, []).
Proof.
  apply (proj1 (route_shields_upstream
                  {["203.0.113.7" := {| count := 10; resetTime := 60000 |}]}
                  "203.0.113.7" 100 (JsString "hello") (fun _ => Text "hi there"))
           {| count := 10; resetTime := 60000 |}).
  - apply lookup_singleton_eq.
  - cbn. lia.
  - cbn. lia.
Defined.

(** ** Retryable messages *)

Lemma append_assoc (a b c : string) : (a +:+ b) +:+ c = a +:+ (b +:+ c).
Proof.
  induction a as [|x a IH]; [reflexivity|].
  change (String x ((a +:+ b) +:+ c) = String x (a +:+ (b +:+ c))).
  rewrite IH. reflexivity.
Qed.

(** X21.  The test for a retryable failure looks for its two markers
    anywhere in the message: a retryable message stays retryable inside
    any longer message, so the text a library puts before or after the
    upstream's own message does not change the decision. *)
Theorem retryable_inside_longer_message (message pre post : string) :
  retryable message = true ->
  retryable (pre +:+ message +:+ post) = true.
Proof.
  unfold retryable. rewrite !orb_true_iff, !ServerFacts.includes_spec.
  assert (Hgrow : forall sub : string,
             has_substring message sub ->
             has_substring (pre +:+ message +:+ post) sub).
  { intros sub (a & b & ->). exists (pre +:+ a), (b +:+ post).
    rewrite !append_assoc. reflexivity. }
  intros [H|H]; [left|right]; apply Hgrow; exact H.
Qed.

Lemma retryable_inside_longer_message_witness :
  retryable "quota" = true /\
  retryable ("[GoogleGenerativeAI Error]: " +:+ "quota" +:+ " exceeded") = true.
Proof.
  split; [reflexivity|].
  apply (retryable_inside_longer_message "quota"
           "[GoogleGenerativeAI Error]: " " exceeded").
  reflexivity.
Defined.

End ServerRequests.
